(** * TransformationAgent: a shallow embedding and its verified properties

    The development follows
    [src/TransformationSystem/Agent/TransformationAgent.py].  The agent
    object [self], the disk file holding the pickled replica cache, the log
    and the history of calls to the remote services form one store that
    every method threads through; a method either returns a value or raises.

    Conventions.
    - A Python dict used as a map is a [gmap]; its iteration order is the
      one of [map_to_list].
    - [S_OK] / [S_ERROR] dictionaries are the type [result].
    - The transformation client, the replica manager and the plug-in are
      outside the repository: their answers come from a [world], a function
      of the history of calls made so far.
    - A [datetime] is a number of microseconds. *)

From stdpp Require Import gmap strings list fin_maps.
From Stdlib Require Import ZArith Lia.

Local Open Scope string_scope.
Local Open Scope list_scope.
Local Open Scope Z_scope.

(** ** Python values the agent handles *)

Module Py.

(** Exceptions that the modelled code can raise, and those that a method
    called through the object can: [SystemExit], [KeyboardInterrupt] and
    [GeneratorExit] derive from [BaseException] directly, not from
    [Exception]. *)
Inductive exn : Type :=
| TypeError (what : string)
| AttributeError (name : string)
| KeyError (key : string)
| ValueError (what : string)
| SystemExit (code : Z)
| KeyboardInterrupt
| GeneratorExit.

(** [isinstance(e, Exception)]: what [except Exception] catches. *)
Definition is_Exception (e : exn) : bool :=
  match e with
  | TypeError _ | AttributeError _ | KeyError _ | ValueError _ => true
  | SystemExit _ | KeyboardInterrupt | GeneratorExit => false
  end.

(** What evaluating a call gives: a value, or a raised exception. *)
Inductive outcome (A : Type) : Type :=
| Return (a : A)
| Raise (e : exn).
Arguments Return {A} a.
Arguments Raise {A} e.

(** DIRAC's return structure: [S_OK(v)] is [{'OK': True, 'Value': v}],
    [S_ERROR(m)] is [{'OK': False, 'Message': m}]. *)
Inductive result (A : Type) : Type :=
| S_OK (Value : A)
| S_ERROR (Message : string).
Arguments S_OK {A} Value.
Arguments S_ERROR {A} Message.

Definition OK {A} (res : result A) : bool :=
  match res with S_OK _ => true | S_ERROR _ => false end.

(** [l[i:j]] for a list: a negative bound counts from the end, and both
    bounds are clamped to the list. *)
Definition clamp_index (len i : Z) : Z :=
  if i <? 0 then Z.max (i + len) 0 else Z.min i len.

Definition slice {A} (l : list A) (i j : Z) : list A :=
  let len := Z.of_nat (length l) in
  let lo := clamp_index len i in
  let hi := clamp_index len j in
  take (Z.to_nat (hi - lo)) (drop (Z.to_nat lo) l).

(** [s.lower()] on ASCII strings. *)
Definition lower_ascii (c : Ascii.ascii) : Ascii.ascii :=
  let n := Ascii.nat_of_ascii c in
  if ((65 <=? n) && (n <=? 90))%nat then Ascii.ascii_of_nat (n + 32) else c.

Fixpoint lower (s : string) : string :=
  match s with
  | EmptyString => EmptyString
  | String c s' => String (lower_ascii c) (lower s')
  end.

(** [re.search(pat, s)] for a pattern without metacharacters: does [pat]
    occur in [s]. *)
Fixpoint search (pat s : string) : bool :=
  String.prefix pat s ||
  match s with
  | EmptyString => false
  | String _ s' => search pat s'
  end.

(** *** Binding the arguments of a call

    A call site gives positional arguments and keyword arguments; the
    callee has a list of parameter names, the last [ndefaults] of which
    have a default.  Binding fails with [TypeError] when there are too
    many positional arguments, when a keyword names a parameter that a
    positional argument already filled or that is not a parameter, or
    when a parameter without default is left unfilled. *)
Section Binding.
Context {V : Type}.

Fixpoint bind_positional (params : list string) (pos : list V)
  : option (list (string * option V)) :=
  match params, pos with
  | [], [] => Some []
  | [], _ :: _ => None
  | p :: ps, [] => Some ((p, None) :: map (λ q, (q, None)) ps)
  | p :: ps, v :: vs =>
      match bind_positional ps vs with
      | Some bs => Some ((p, Some v) :: bs)
      | None => None
      end
  end.

Fixpoint bind_keyword (bs : list (string * option V)) (k : string) (v : V)
  : outcome (list (string * option V)) :=
  match bs with
  | [] => Raise (TypeError "got an unexpected keyword argument")
  | (p, o) :: bs' =>
      if String.eqb p k then
        match o with
        | Some _ => Raise (TypeError "got multiple values for keyword argument")
        | None => Return ((p, Some v) :: bs')
        end
      else
        match bind_keyword bs' k v with
        | Return r => Return ((p, o) :: r)
        | Raise e => Raise e
        end
  end.

Fixpoint bind_keywords (bs : list (string * option V)) (kw : list (string * V))
  : outcome (list (string * option V)) :=
  match kw with
  | [] => Return bs
  | (k, v) :: kw' =>
      match bind_keyword bs k v with
      | Return bs' => bind_keywords bs' kw'
      | Raise e => Raise e
      end
  end.

(** The parameters before the last [ndefaults] must all be filled. *)
Definition required_filled (ndefaults : nat) (bs : list (string * option V)) : bool :=
  forallb (λ b : string * option V, match b.2 with Some _ => true | None => false end)
          (take (length bs - ndefaults)%nat bs).

Definition bind_args (params : list string) (ndefaults : nat)
    (pos : list V) (kw : list (string * V)) : outcome (list (option V)) :=
  match bind_positional params pos with
  | None => Raise (TypeError "too many arguments given")
  | Some bs =>
      match bind_keywords bs kw with
      | Raise e => Raise e
      | Return bs' =>
          if required_filled ndefaults bs' then Return (map snd bs')
          else Raise (TypeError "too few arguments given")
      end
  end.
End Binding.

End Py.
Import Py.

(** ** Sampling: [__applyReduction] *)

(** The value [random.uniform(0, n)] is [n * u] for a draw [u] of the unit
    interval, here the fraction [num / den]; [int] truncates it. *)
Record draw : Type := Draw { num : Z; den : Z }.

Definition unit_draw (u : draw) : Prop := 0 <= num u <= den u ∧ 0 < den u.

Definition int_uniform (n : Z) (u : draw) : Z := Z.quot (n * num u) (den u).

Definition __applyReduction {A} (maxFiles : Z) (u : draw) (lfns : list A) : list A :=
  let len := Z.of_nat (length lfns) in
  let firstFile := if len <=? maxFiles then 0 else int_uniform (len - maxFiles) u in
  slice lfns firstFile (firstFile + maxFiles - 1).

(** ** Data model *)

(** A transformation descriptor, the dict [transDict].  ['Plugin'] may be
    absent. *)
Record transDict : Type := TransDict {
  TransformationID : Z;
  TransType : string;            (* transDict['Type'] *)
  Status : string;
  Plugin : option string
}.

(** A work-item record as [getTransformationFiles] returns it. *)
Record transFile : Type := TransFile { LFN : string }.

(** Replicas of one file: storage element to physical name. *)
Abbreviation replicas := (gmap string string).
(** A resolved-location map, also the content of one cache snapshot. *)
Abbreviation replicaMap := (gmap string (gmap string string)).
(** [self.replicaCache]: transformation, then time of the snapshot. *)
Abbreviation cache := (gmap Z (gmap Z (gmap string (gmap string string)))).

(** The pickle file [ReplicaCache.pkl]. *)
Inductive file : Type :=
| Pickled (c : cache)
| Unreadable.

(** The answer of the catalog to a batch of file names. *)
Record catalogReply : Type := CatalogReply {
  Successful : gmap string (gmap string string);
  Failed : gmap string string
}.

(** Calls that leave the agent's process. *)
Module Remote.
Inductive call : Type :=
| getTransformations (status types : list string)
| getTransformation (transName : string)
| getTransformationFiles (transID : Z) (status : string)
| setTransformationParameter (transID : Z) (name value : string)
| addTaskForTransformation (transID : Z) (lfns : list string) (se : string)
| setFileStatusForTransformation (transID : Z) (status : string) (lfns : list string)
| getActiveReplicas (lfns : list string)
| getReplicas (lfns : list string)
| TransformationPlugin (plugin : string)
| generateTasks (plugin : string) (params : transDict)
                (dataReplicas : replicaMap) (transFiles : list transFile).

(** Calls to the transformation service. *)
Definition registry (c : call) : bool :=
  match c with
  | getTransformations _ _ | getTransformation _ | getTransformationFiles _ _
  | setTransformationParameter _ _ _ | addTaskForTransformation _ _ _
  | setFileStatusForTransformation _ _ _ => true
  | _ => false
  end.

(** Calls to the replica catalog. *)
Definition catalog (c : call) : bool :=
  match c with
  | getActiveReplicas _ | getReplicas _ => true
  | _ => false
  end.
End Remote.

(** One call in the history, with whether it answered ['OK']. *)
Record event : Type := Event { ev_call : Remote.call; ev_ok : bool }.

(** Everything outside the agent.  Each answer may depend on the calls made
    before it. *)
Record world : Type := World {
  transDB_getTransformations :
    list event → list string → list string → result (list transDict);
  transfClient_getTransformation : list event → string → result transDict;
  transfClient_getTransformationFiles : list event → Z → string → result (list transFile);
  transfClient_setTransformationParameter : list event → Z → string → string → result unit;
  transfClient_addTaskForTransformation : list event → Z → list string → string → result unit;
  transfClient_setFileStatusForTransformation :
    list event → Z → string → list string → result unit;
  rm_getActiveReplicas : list event → list string → result catalogReply;
  rm_getReplicas : list event → list string → result catalogReply;
  plugin_create : list event → string → result unit;
  plugin_generateTasks :
    list event → string → transDict → replicaMap → list transFile →
    result (list (string * list string));
  (** [datetime.datetime.utcnow()], in microseconds *)
  utcnow : list event → Z;
  (** the draw behind [random.uniform] *)
  random : list event → draw;
  (** [pickle.dump] to the cache file: [None] when the write goes through,
      [Some f] when it fails and leaves [f] on disk *)
  pickle_dump : list event → option file
}.

Inductive level : Type := Verbose | Info | Warn | Error | Exception.

(** The agent [self] together with what it acts on. *)
Record agent : Type := Agent {
  (* am_getOption( 'Transformation', 'All' ) *)
  opt_Transformation : option string;
  transformationStatus : list string;
  maxFiles : Z;
  transformationTypes : list string;
  transQueue : list transDict;
  transInQueue : list Z;
  replicaCacheValidity : Z;
  replicaCache : cache;
  unusedFiles : gmap Z Z;
  (* outside the object *)
  cacheFile : file;
  log : list (level * string);
  history : list event
}.

Definition set_transQueue (q : list transDict) (a : agent) : agent :=
  Agent (opt_Transformation a) (transformationStatus a) (maxFiles a) (transformationTypes a)
        q (transInQueue a) (replicaCacheValidity a) (replicaCache a) (unusedFiles a)
        (cacheFile a) (log a) (history a).

Definition set_transInQueue (l : list Z) (a : agent) : agent :=
  Agent (opt_Transformation a) (transformationStatus a) (maxFiles a) (transformationTypes a)
        (transQueue a) l (replicaCacheValidity a) (replicaCache a) (unusedFiles a)
        (cacheFile a) (log a) (history a).

Definition set_replicaCache (c : cache) (a : agent) : agent :=
  Agent (opt_Transformation a) (transformationStatus a) (maxFiles a) (transformationTypes a)
        (transQueue a) (transInQueue a) (replicaCacheValidity a) c (unusedFiles a)
        (cacheFile a) (log a) (history a).

Definition set_unusedFiles (u : gmap Z Z) (a : agent) : agent :=
  Agent (opt_Transformation a) (transformationStatus a) (maxFiles a) (transformationTypes a)
        (transQueue a) (transInQueue a) (replicaCacheValidity a) (replicaCache a) u
        (cacheFile a) (log a) (history a).

Definition set_cacheFile (f : file) (a : agent) : agent :=
  Agent (opt_Transformation a) (transformationStatus a) (maxFiles a) (transformationTypes a)
        (transQueue a) (transInQueue a) (replicaCacheValidity a) (replicaCache a) (unusedFiles a)
        f (log a) (history a).

Definition set_log (l : list (level * string)) (a : agent) : agent :=
  Agent (opt_Transformation a) (transformationStatus a) (maxFiles a) (transformationTypes a)
        (transQueue a) (transInQueue a) (replicaCacheValidity a) (replicaCache a) (unusedFiles a)
        (cacheFile a) l (history a).

Definition set_history (h : list event) (a : agent) : agent :=
  Agent (opt_Transformation a) (transformationStatus a) (maxFiles a) (transformationTypes a)
        (transQueue a) (transInQueue a) (replicaCacheValidity a) (replicaCache a) (unusedFiles a)
        (cacheFile a) (log a) h.

(** Names bound on [self]: what [__init__] assigns, [replicaCache] from
    [__readCache], and [log] from the agent base class. *)
Definition instance_attributes : list string :=
  [ "pluginLocation"; "checkCatalog"; "transformationStatus"; "maxFiles";
    "transformationTypes"; "transfClient"; "rm"; "transQueue"; "transInQueue";
    "lock"; "workDirectory"; "cacheFile"; "replicaCacheValidity";
    "replicaCache"; "unusedFiles"; "log" ].

(** ** The monad of methods: store passing with exceptions *)

(** A computation over a store [S] returns or raises, and leaves a store in
    both cases. *)
Definition ST (S A : Type) : Type := S → outcome A * S.

Definition ret {S A} (a : A) : ST S A := λ st, (Return a, st).

Definition bind {S A B} (c : ST S A) (k : A → ST S B) : ST S B :=
  λ st, match c st with
        | (Return a, st') => k a st'
        | (Raise e, st') => (Raise e, st')
        end.

#[global] Instance ST_ret {S} : MRet (ST S) := @ret S.
#[global] Instance ST_bind {S} : MBind (ST S) := λ A B k c, bind c k.

Definition raise {S A} (e : exn) : ST S A := λ st, (Raise e, st).
Definition get {S} : ST S S := λ st, (Return st, st).
Definition modify {S} (f : S → S) : ST S unit := λ st, (Return tt, f st).

(** Methods of the agent run over the agent's store. *)
Abbreviation M := (ST agent).

(** [try: body  except: handler], with a bare [except], which catches
    every exception. *)
Definition try_except {S A} (body : ST S A) (handler : exn → ST S A) : ST S A :=
  λ st, match body st with
        | (Raise e, st') => handler e st'
        | r => r
        end.

(** [try: body  except Exception, x: handler]: an exception that does not
    derive from [Exception] is not caught and goes on to the caller. *)
Definition try_except_Exception {S A} (body : ST S A) (handler : exn → ST S A)
  : ST S A :=
  λ st, match body st with
        | (Raise e, st') => if is_Exception e then handler e st' else (Raise e, st')
        | r => r
        end.

(** [try: body  finally: final]: [final] always runs; an exception of
    [final] replaces the outcome of [body]. *)
Definition try_finally {S A} (body : ST S A) (final : ST S unit) : ST S A :=
  λ st, match body st with
        | (o, st') =>
            match final st' with
            | (Return _, st'') => (o, st'')
            | (Raise e, st'') => (Raise e, st'')
            end
        end.

(** A block that assigns local variables [L] of the method, run as
    [try: body  except: pass]: whatever the outcome of the body, the method
    goes on with the locals and the store as the body left them. *)
Definition try_pass_locals {L} (init : L) (body : ST (L * agent) unit) : M L :=
  λ st, match body (init, st) with
        | (_, (locals, st')) => (Return locals, st')
        end.

Definition on_agent {L A} (c : M A) : ST (L * agent) A :=
  λ s, match c s.2 with (o, st') => (o, (s.1, st')) end.

Definition on_locals {L} (f : L → L) : ST (L * agent) unit :=
  modify (λ s, (f s.1, s.2)).

(** [for x in l: acc = body(acc, x)] *)
Fixpoint foldM {S A B} (body : B → A → ST S B) (acc : B) (l : list A) : ST S B :=
  match l with
  | [] => ret acc
  | x :: l' => bind (body acc x) (λ acc', foldM body acc' l')
  end.

Definition forM_ {S A} (l : list A) (body : A → ST S unit) : ST S unit :=
  foldM (λ _ x, body x) tt l.

(** [d[k]] and [d.pop(k)] on a dict: [KeyError] when the key is absent. *)
Definition subscript `{Countable K} {S V} (d : gmap K V) (k : K) : ST S V :=
  match d !! k with
  | Some v => ret v
  | None => raise (KeyError "key not found")
  end.

(** [list.remove(x)]: drops the first occurrence. *)
Fixpoint remove_first (x : Z) (l : list Z) : option (list Z) :=
  match l with
  | [] => None
  | y :: l' =>
      if bool_decide (y = x) then Some l'
      else match remove_first x l' with
           | Some r => Some (y :: r)
           | None => None
           end
  end.

(** [self.name]: [AttributeError] unless the name is bound on the object. *)
Definition getattr (name : string) : M unit :=
  if bool_decide (name ∈ instance_attributes) then ret tt
  else raise (AttributeError name).

(** Modelled from the spec: the logging helpers [__logVerbose], [__logInfo],
    [__logWarn], [__logError], [__logException] and [self.log.*], which the
    agent takes from its base classes [AgentModule] and
    [TransformationAgentsUtilities], outside this file.  The spec has
    failures logged and nothing more: a helper records the message (its
    level and its format string) and returns. *)
Definition logMsg (lv : level) (msg : string) : M unit :=
  modify (λ st, set_log (log st ++ [(lv, msg)]) st).

(** Values passed as arguments at the call sites modelled with
    [bind_args]. *)
Inductive pyarg : Type :=
| ASelf
| ATransDict (d : transDict)
| ATransID (transID : Z)
| ALfns (lfns : list string)
| ABool (b : bool).

(** [datetime.timedelta( days = n )] *)
Definition timedelta_days (n : Z) : Z := n * 86400000000.

(** ** The methods of [TransformationAgent] *)

Section Agent.

Variable W : world.

(** A call on the client held in [self.attr]; it enters the history. *)
Definition remote {A} (attr : string) (c : Remote.call)
    (answer : list event → result A) : M (result A) :=
  getattr attr ;;
  st ← get;
  let res := answer (history st) in
  modify (set_history (history st ++ [Event c (OK res)])) ;;
  ret res.

(** *** The replica cache on disk *)

Definition __readCache : M unit :=
  st ← get;
  match cacheFile st with
  | Pickled c =>
      modify (set_replicaCache c) ;;
      logMsg Verbose "Successfully loaded replica cache from file %s"
  | Unreadable =>
      logMsg Verbose "Failed to load replica cache from file %s" ;;
      modify (set_replicaCache ∅)
  end.

Definition __writeCache : M unit :=
  st ← get;
  match pickle_dump W (history st) with
  | None =>
      modify (set_cacheFile (Pickled (replicaCache st))) ;;
      logMsg Verbose "Successfully wrote replica cache file %s"
  | Some residue =>
      modify (set_cacheFile residue) ;;
      logMsg Error "Could not write replica cache file %s"
  end.

(** The options [__init__] reads with [am_getOption]. *)
Record options : Type := Options {
  o_transformationStatus : option (list string);
  o_MaxFiles : option Z;
  o_TransformationTypes : option (list string);
  o_Transformation : option string
}.

Definition __init__ (o : options) (disk : file) : agent :=
  (__readCache
     {| opt_Transformation := o_Transformation o;
        transformationStatus :=
          default ["Active"; "Completing"; "Flush"] (o_transformationStatus o);
        maxFiles := default 5000 (o_MaxFiles o);
        transformationTypes := default [] (o_TransformationTypes o);
        transQueue := [];
        transInQueue := [];
        replicaCacheValidity := 2;
        replicaCache := ∅;
        unusedFiles := ∅;
        cacheFile := disk;
        log := [];
        history := [] |}).2.

(** *** The dispatcher *)

Definition getTransformations : M (result (list transDict)) :=
  st ← get;
  let transName := default "All" (opt_Transformation st) in
  if String.eqb transName "All" then
    logMsg Info "getTransformations: Initializing general purpose agent." ;;
    (* transfDict: 'Status', and 'Type' when self.transformationTypes *)
    res ← remote "transDB"
            (Remote.getTransformations (transformationStatus st) (transformationTypes st))
            (λ h, transDB_getTransformations W h
                    (transformationStatus st) (transformationTypes st));
    match res with
    | S_ERROR msg =>
        logMsg Error "Failed to get transformations: %s" ;;
        ret (S_ERROR msg)
    | S_OK transformations =>
        logMsg Info "Obtained %d transformations to process" ;;
        ret (S_OK transformations)
    end
  else
    logMsg Info "getTransformations: Initializing for transformation %s." ;;
    res ← remote "transfClient" (Remote.getTransformation transName)
            (λ h, transfClient_getTransformation W h transName);
    match res with
    | S_ERROR msg =>
        logMsg Error "Failed to get transformation: %s." ;;
        ret (S_ERROR msg)
    | S_OK transformation => ret (S_OK [transformation])
    end.

(** The body of the loop of [execute] for one descriptor. *)
Definition enqueue (count : Z) (transDict : transDict) : M Z :=
  let transID := TransformationID transDict in
  st ← get;
  if bool_decide (transID ∈ transInQueue st) then ret count
  else
    modify (λ st, set_transInQueue (transInQueue st ++ [transID]) st) ;;
    modify (λ st, set_transQueue (transQueue st ++ [transDict]) st) ;;
    ret (count + 1).

Definition execute : M (result unit) :=
  res ← getTransformations;
  match res with
  | S_ERROR _ =>
      logMsg Error "Failed to obtain transformations: %s" ;;
      ret (S_OK tt)
  | S_OK transformations =>
      foldM enqueue 0 transformations ;;
      logMsg Info "Out of %d transformations, %d put in thread queue" ;;
      ret (S_OK tt)
  end.

(** The [finally] clause of the worker loop. *)
Definition release (transID : Z) : M unit :=
  st ← get;
  if bool_decide (transID ∈ transInQueue st) then
    match remove_first transID (transInQueue st) with
    | Some l => modify (set_transInQueue l)
    | None => raise (ValueError "list.remove(x): x not in list")
    end
  else ret tt.

(** One turn of the loop of [_execute] on the descriptor taken from the
    queue.  [self.processTransformation] is looked up on the object, so the
    method is a parameter here; the agent's own is [processTransformation]
    below. *)
Definition _execute_body (process : transDict → M (result unit))
    (transDict : transDict) : M unit :=
  let transID := TransformationID transDict in
  try_finally
    (try_except_Exception
       (logMsg Info "Processing transformation %s." ;;
        res ← process transDict;
        match res with
        | S_ERROR _ => logMsg Info "Failed to process transformation: %s"
        | S_OK _ => logMsg Info "Processed transformation in %.1f seconds"
        end)
       (λ x, logMsg Exception "%s"))
    (release transID).

(** The first [n] turns of [while True] in [_execute]; [transQueue.get()]
    blocks on an empty queue, where the turns stop.  An exception that
    leaves a turn leaves the loop. *)
Fixpoint _execute (process : transDict → M (result unit)) (n : nat) : M unit :=
  match n with
  | O => ret tt
  | S n' =>
      st ← get;
      match transQueue st with
      | [] => ret tt
      | transDict :: queue =>
          modify (set_transQueue queue) ;;
          _execute_body process transDict ;;
          _execute process n'
      end
  end.

(** *** Enumeration and sampling *)

Definition _getTransformationFiles (transDict : transDict)
  : M (result (option (list transFile))) :=
  let transID := TransformationID transDict in
  res ← remote "transfClient" (Remote.getTransformationFiles transID "Unused")
          (λ h, transfClient_getTransformationFiles W h transID "Unused");
  match res with
  | S_ERROR msg =>
      logMsg Error "Failed to obtain input data: %s." ;;
      ret (S_ERROR msg)
  | S_OK [] =>
      logMsg Info "No 'Unused' files found for transformation." ;;
      (if String.eqb (Status transDict) "Flush" then
         res ← remote "transfClient"
                 (Remote.setTransformationParameter transID "Status" "Active")
                 (λ h, transfClient_setTransformationParameter W h transID "Status" "Active");
         match res with
         | S_ERROR _ =>
             logMsg Error "Failed to update transformation status to 'Active': %s."
         | S_OK _ => logMsg Info "Updated transformation status to 'Active'."
         end
       else ret tt) ;;
      ret (S_OK None)
  | S_OK transFiles =>
      st ← get;
      if (Z.of_nat (length transFiles) =? default 0 (unusedFiles st !! transID))
         && negb (String.eqb (Status transDict) "Flush")
      then
        logMsg Info "No new 'Unused' files found for transformation." ;;
        ret (S_OK None)
      else ret (S_OK (Some transFiles))
  end.

(** [self._getTransformationFiles( ... )] as a call: the arguments are bound
    to [( self, transDict )] first. *)
Definition call__getTransformationFiles (pos : list pyarg) (kw : list (string * pyarg))
  : M (result (option (list transFile))) :=
  match bind_args ["self"; "transDict"] 0 (ASelf :: pos) kw with
  | Raise e => raise e
  | Return [Some ASelf; Some (ATransDict transDict)] => _getTransformationFiles transDict
  | Return _ => raise (TypeError "argument of an unexpected type")
  end.

Definition __applyReduction_self (lfns : list string) : M (list string) :=
  st ← get;
  ret (__applyReduction (maxFiles st) (random W (history st)) lfns).

(** *** The replica cache *)

(** The body of [for updateTime in self.replicaCache[transID].copy()]. *)
Definition clean_snapshot (timeLimit transID updateTime : Z) : M unit :=
  st ← get;
  snapshots ← subscript (replicaCache st) transID;
  cachedReplicas ← subscript snapshots updateTime;
  if (updateTime <? timeLimit) || bool_decide (cachedReplicas = ∅) then
    logMsg Verbose "Clear %d cached replicas for transformation %s" ;;
    modify (set_replicaCache
              (<[transID := delete updateTime snapshots]> (replicaCache st)))
  else ret tt.

(** The body of [for transID in [transID for transID in self.replicaCache]]. *)
Definition clean_transformation (timeLimit transID : Z) : M unit :=
  st ← get;
  snapshots ← subscript (replicaCache st) transID;
  forM_ ((map_to_list snapshots).*1) (clean_snapshot timeLimit transID) ;;
  (* Remove empty transformations *)
  st ← get;
  snapshots ← subscript (replicaCache st) transID;
  if bool_decide (snapshots = ∅) then
    modify (set_replicaCache (delete transID (replicaCache st)))
  else ret tt.

Definition __cleanCache : M unit :=
  try_except
    (st ← get;
     let timeLimit :=
       utcnow W (history st) - timedelta_days (replicaCacheValidity st) in
     forM_ ((map_to_list (replicaCache st)).*1) (clean_transformation timeLimit) ;;
     __writeCache)
    (λ _, ret tt).

Definition __getDataReplicasRM (transID : Z) (lfns : list string) (active : bool)
  : M (result replicaMap) :=
  res ← (if active
         then remote "rm" (Remote.getActiveReplicas lfns) (λ h, rm_getActiveReplicas W h lfns)
         else remote "rm" (Remote.getReplicas lfns) (λ h, rm_getReplicas W h lfns));
  match res with
  | S_ERROR msg => ret (S_ERROR msg)
  | S_OK Value =>
      logMsg Info "Replica results for %d files obtained in %.2f seconds" ;;
      (* Create a dictionary containing all the file replicas *)
      dataReplicas ←
        foldM (λ (dataReplicas : replicaMap) '((lfn, replicaDict) : string * replicas),
          foldM (λ (dataReplicas : replicaMap) '(se, pfn),
            if active && search "failover" (lower se) then
              logMsg Warn "Ignoring failover replica for %s." ;;
              ret dataReplicas
            else
              let dataReplicas :=
                match dataReplicas !! lfn with
                | Some _ => dataReplicas
                | None => <[lfn := ∅]> dataReplicas
                end in
              ses ← subscript dataReplicas lfn;
              ret (<[lfn := <[se := pfn]> ses]> dataReplicas))
            dataReplicas (map_to_list replicaDict))
          ∅ (map_to_list (Successful Value));
      (* Make sure that file missing from the catalog are marked *)
      missingLfns ←
        foldM (λ (missingLfns : list string) '(lfn, reason),
          if search "No such file or directory" reason then
            logMsg Warn "%s not found in the catalog." ;;
            ret (missingLfns ++ [lfn])
          else ret missingLfns)
          [] (map_to_list (Failed Value));
      match missingLfns with
      | [] => ret tt
      | _ =>
          res ← remote "transfClient"
                  (Remote.setFileStatusForTransformation transID "MissingLFC" missingLfns)
                  (λ h, transfClient_setFileStatusForTransformation W h
                          transID "MissingLFC" missingLfns);
          match res with
          | S_ERROR _ => logMsg Warn "Failed to update status of missing files: %s."
          | S_OK _ => ret tt
          end
      end ;;
      if bool_decide (dataReplicas = ∅) then ret (S_ERROR "No replicas obtained")
      else ret (S_OK dataReplicas)
  end.

(** [self.__getDataReplicasRM( ... )] as a call: the arguments are bound to
    [( self, transID, lfns, active = True )] first. *)
Definition call__getDataReplicasRM (pos : list pyarg) (kw : list (string * pyarg))
  : M (result replicaMap) :=
  match bind_args ["self"; "transID"; "lfns"; "active"] 1 (ASelf :: pos) kw with
  | Raise e => raise e
  | Return [Some ASelf; Some (ATransID transID); Some (ALfns lfns); Some (ABool active)] =>
      __getDataReplicasRM transID lfns active
  | Return [Some ASelf; Some (ATransID transID); Some (ALfns lfns); None] =>
      __getDataReplicasRM transID lfns true
  | Return _ => raise (TypeError "argument of an unexpected type")
  end.

(** [self.replicaCache[transID][crs].pop( lfn )] *)
Definition pop_cached (transID crs : Z) (lfn : string) : M unit :=
  st ← get;
  snapshots ← subscript (replicaCache st) transID;
  cachedReplicas ← subscript snapshots crs;
  subscript cachedReplicas lfn ;;
  modify (set_replicaCache
            (<[transID := <[crs := delete lfn cachedReplicas]> snapshots]> (replicaCache st))).

(** [dataReplicas[lfn] = cachedReplicas[lfn]] *)
Definition scan_hit (cachedReplicas : replicaMap) (lfn : string)
  : ST (replicaMap * agent) unit :=
  locations ← subscript cachedReplicas lfn;
  on_locals (insert lfn locations).

(** The body of [for crs in cachedReplicaSets]; [cachedReplicaSets] is the
    dict stored in the cache under [transID]. *)
Definition scan_snapshot (transID : Z) (lfns : list string) (crs : Z)
  : ST (replicaMap * agent) unit :=
  st ← on_agent get;
  cachedReplicas ← subscript (default ∅ (replicaCache st !! transID)) crs;
  forM_ (filter (λ lfn, is_Some (cachedReplicas !! lfn)) lfns) (scan_hit cachedReplicas) ;;
  (* Remove files from the cache that are not in the required list *)
  forM_ (filter (λ lfn, lfn ∉ lfns) ((map_to_list cachedReplicas).*1))
        (λ lfn, on_agent (pop_cached transID crs lfn)).

(** The block of [__getDataReplicas] under the lock; its local variable is
    [dataReplicas]. *)
Definition scan_cache (transID : Z) (lfns : list string) : ST (replicaMap * agent) unit :=
  st ← on_agent get;
  (* cachedReplicaSets is the dict stored in the cache, or a fresh {} *)
  let cachedReplicaSets := default ∅ (replicaCache st !! transID) in
  forM_ ((map_to_list cachedReplicaSets).*1) (scan_snapshot transID lfns).

Definition __getDataReplicas (transID : Z) (lfns : list string) (active : bool)
  : M (result replicaMap) :=
  logMsg Verbose "Getting replicas for %d files" ;;
  dataReplicas ← try_pass_locals (∅ : replicaMap) (scan_cache transID lfns);
  (if bool_decide (dataReplicas = ∅) then ret tt
   else logMsg Verbose "ReplicaCache hit for %d out of %d LFNs") ;;
  let newLFNs := filter (λ lfn, dataReplicas !! lfn = None) lfns in
  dataReplicas ←
    match newLFNs with
    | [] => ret dataReplicas
    | _ =>
        logMsg Verbose "Getting replicas for %d files from catalog" ;;
        res ← call__getDataReplicasRM
                [ASelf; ATransID transID; ALfns newLFNs] [("active", ABool active)];
        match res with
        | S_OK newReplicas =>
            st ← get;
            modify (set_replicaCache
                      (<[transID := <[utcnow W (history st) := newReplicas]>
                                      (default ∅ (replicaCache st !! transID))]>
                         (replicaCache st))) ;;
            ret (newReplicas ∪ dataReplicas)
        | S_ERROR _ =>
            logMsg Warn "Failed to get replicas for %d files" ;;
            ret dataReplicas
        end
    end;
  __cleanCache ;;
  ret (S_OK dataReplicas).

(** *** The pipeline *)

(** An operation of the plug-in machinery, entered in the history. *)
Definition external {A} (c : Remote.call) (answer : list event → result A)
  : M (result A) :=
  st ← get;
  let res := answer (history st) in
  modify (set_history (history st ++ [Event c (OK res)])) ;;
  ret res.

(** Importing the plug-in module and building the object; both failures
    give [S_ERROR()]. *)
Definition __generatePluginObject (plugin : string) : M (result unit) :=
  external (Remote.TransformationPlugin plugin) (λ h, plugin_create W h plugin).

(** The body of [for se, lfns in tasks]; the locals it updates are
    [allCreated], [created] and [unusedFiles]. *)
Definition addTask (transID : Z) (locals : bool * Z * Z) (task : string * list string)
  : M (bool * Z * Z) :=
  let '(allCreated, created, unusedFiles') := locals in
  let '(se, lfns) := task in
  res ← remote "transfClient" (Remote.addTaskForTransformation transID lfns se)
          (λ h, transfClient_addTaskForTransformation W h transID lfns se);
  match res with
  | S_ERROR _ =>
      logMsg Error "Failed to add task generated by plug-in: %s." ;;
      ret (false, created, unusedFiles')
  | S_OK _ => ret (allCreated, created + 1, unusedFiles' - Z.of_nat (length lfns))
  end.

(** From [# Create the tasks] to the end of [processTransformation]. *)
Definition createTasks (transDict : transDict) (tasks : list (string * list string))
    (unusedFiles0 : Z) : M (result unit) :=
  let transID := TransformationID transDict in
  '(allCreated, created, unusedFiles') ←
    foldM (addTask transID) (true, 0, unusedFiles0) tasks;
  (if created =? 0 then ret tt
   else logMsg Info "Successfully created %d tasks for transformation.") ;;
  modify (λ st, set_unusedFiles (<[transID := unusedFiles']> (unusedFiles st)) st) ;;
  (* If this production is to Flush *)
  (if String.eqb (Status transDict) "Flush" && allCreated then
     res ← remote "transfClient"
             (Remote.setTransformationParameter transID "Status" "Active")
             (λ h, transfClient_setTransformationParameter W h transID "Status" "Active");
     match res with
     | S_ERROR _ => logMsg Error "Failed to update transformation status to 'Active': %s."
     | S_OK _ => logMsg Info "Updated transformation status to 'Active'."
     end
   else ret tt) ;;
  ret (S_OK tt).

(** [processTransformation] after its first statement, from the test of
    [transFiles['OK']] on. *)
Definition processTransformation_rest (transDict : transDict)
    (transFiles : result (option (list transFile))) : M (result unit) :=
  let transID := TransformationID transDict in
  let replicateOrRemove :=
    bool_decide (lower (TransType transDict) ∈ ["replication"; "removal"]) in
  match transFiles with
  | S_ERROR msg => ret (S_ERROR msg)
  | S_OK Value =>
      transFiles ← match Value with
                   | Some files => ret files
                   | None => raise (TypeError "'NoneType' object is not iterable")
                   end;
      let lfns := map LFN transFiles in
      (* Limit the number of LFNs to be considered for replication or removal *)
      lfns ← (if replicateOrRemove then __applyReduction_self lfns else ret lfns);
      let unusedFiles0 := Z.of_nat (length lfns) in
      (* Check the data is available with replicas *)
      res ← __getDataReplicas transID lfns (negb replicateOrRemove);
      match res with
      | S_ERROR msg =>
          logMsg Error "Failed to get data replicas: %s" ;;
          ret (S_ERROR msg)
      | S_OK dataReplicas =>
          let plugin :=
            match Plugin transDict with
            | Some p => if String.eqb p EmptyString then "Standard" else p
            | None => "Standard"
            end in
          logMsg Info "Processing transformation with '%s' plug-in." ;;
          res ← __generatePluginObject plugin;
          match res with
          | S_ERROR msg => ret (S_ERROR msg)
          | S_OK _ =>
              res ← external (Remote.generateTasks plugin transDict dataReplicas transFiles)
                      (λ h, plugin_generateTasks W h plugin transDict dataReplicas transFiles);
              match res with
              | S_ERROR msg =>
                  logMsg Error "Failed to generate tasks for transformation: %s" ;;
                  ret (S_ERROR msg)
              | S_OK tasks => createTasks transDict tasks unusedFiles0
              end
          end
      end
  end.

Definition processTransformation (transDict : transDict) : M (result unit) :=
  (* transFiles = self._getTransformationFiles() *)
  transFiles ← call__getTransformationFiles [] [];
  processTransformation_rest transDict transFiles.

(** *** Shutdown and the plug-in callback *)

(** [while self.transInQueue: time.sleep( 2 )], for at most [fuel] sleeps.
    The loop itself changes nothing: what the other threads do to the store
    during one sleep is [others].  The value is [true] when the loop was
    left, [false] when it is still waiting after [fuel] sleeps. *)
Fixpoint wait_for_queue (others : agent → agent) (fuel : nat) : M bool :=
  match fuel with
  | O => st ← get;
         match transInQueue st with
         | [] => ret true
         | _ => ret false
         end
  | S fuel' =>
      st ← get;
      match transInQueue st with
      | [] => ret true
      | _ => modify others ;; wait_for_queue others fuel'
      end
  end.

(** [finalize]; [None] when it is still waiting after [fuel] sleeps. *)
Definition finalize (others : agent → agent) (fuel : nat) : M (option (result unit)) :=
  st ← get;
  match transInQueue st with
  | [] => ret (Some (S_OK tt))
  | _ =>
      logMsg Info "Wait for queue to get empty before terminating the agent (%d tasks)" ;;
      done ← wait_for_queue others fuel;
      if (done : bool) then
        logMsg Info "Queue is empty, terminating the agent..." ;;
        ret (Some (S_OK tt))
      else ret None
  end.

Definition pluginCallback (transID : Z) (invalidateCache : bool) : M unit :=
  if invalidateCache then
    try_except
      (__readCache ;;
       st ← get;
       if bool_decide (is_Some (replicaCache st !! transID)) then
         logMsg Info "Removed cached replicas for transformation" ;;
         subscript (replicaCache st) transID ;;
         modify (set_replicaCache (delete transID (replicaCache st))) ;;
         __writeCache
       else ret tt)
      (λ _, ret tt)
  else ret tt.

End Agent.

(** ** Interleavings of the poller and the workers *)

(** A processing method that leaves the in-flight list alone; nothing in
    the pipeline mentions [transInQueue]. *)
Definition keeps_transInQueue (process : transDict → M (result unit)) : Prop :=
  ∀ d st, transInQueue (process d st).2 = transInQueue st.

(** What one thread can do to the store between two actions of the others:
    the poller runs [execute], or one turn of its loop; a worker runs one
    turn of [_execute] or several, or only the pipeline, or only the
    [finally] clause. *)
Inductive step (W : world) : agent → agent → Prop :=
| step_execute st :
    step W st (execute W st).2
| step_enqueue count transDict st :
    step W st (enqueue count transDict st).2
| step_turn process transDict st :
    keeps_transInQueue process →
    step W st (_execute_body process transDict st).2
| step_worker process n st :
    keeps_transInQueue process →
    step W st (_execute process n st).2
| step_process (process : transDict → M (result unit)) transDict st :
    keeps_transInQueue process →
    step W st (process transDict st).2
| step_release transID st :
    step W st (release transID st).2.

Inductive reachable (W : world) : agent → Prop :=
| reachable_init o disk : reachable W (__init__ o disk)
| reachable_step st st' : reachable W st → step W st st' → reachable W st'.

(** ** The submissions of one cycle *)

(** The history entries that submitting [tasks] in order produces, starting
    from the history [h]: one per group, with the answer the registry gives
    at that point. *)
Fixpoint submissions (W : world) (transID : Z) (h : list event)
    (tasks : list (string * list string)) : list event :=
  match tasks with
  | [] => []
  | (se, lfns) :: tasks' =>
      let e := Event (Remote.addTaskForTransformation transID lfns se)
                     (OK (transfClient_addTaskForTransformation W h transID lfns se)) in
      e :: submissions W transID (h ++ [e]) tasks'
  end.

(** ** What the scan of the cache computes *)

(** A snapshot restricted to the requested files. *)
Definition compact (lfns : list string) (cachedReplicas : replicaMap) : replicaMap :=
  filter (λ kv, kv.1 ∈ lfns) cachedReplicas.

(** The cache with every snapshot of [transID] restricted to the requested
    files. *)
Definition compacted (transID : Z) (lfns : list string) (c : cache) : cache :=
  alter (fmap (compact lfns)) transID c.

(** [lfn] has an entry in some snapshot that the cache [c] holds for
    [transID], with the locations [locations]. *)
Definition cached_at (c : cache) (transID : Z) (lfn : string) (locations : replicas)
  : Prop :=
  ∃ snapshots crs cachedReplicas,
    c !! transID = Some snapshots ∧ snapshots !! crs = Some cachedReplicas
    ∧ cachedReplicas !! lfn = Some locations.

(** ** What the eviction pass computes *)

(** The test of [__cleanCache] on one snapshot. *)
Definition stale (timeLimit updateTime : Z) (cachedReplicas : replicaMap) : bool :=
  (updateTime <? timeLimit) || bool_decide (cachedReplicas = ∅).

(** The snapshots of one transformation that pass the test. *)
Definition fresh_snapshots (timeLimit : Z) (snapshots : gmap Z replicaMap)
  : gmap Z replicaMap :=
  filter (λ kv, stale timeLimit kv.1 kv.2 = false) snapshots.

(** The cache without its stale snapshots and without the transformations
    left with none. *)
Definition evict (timeLimit : Z) (c : cache) : cache :=
  omap (λ snapshots,
          let kept := fresh_snapshots timeLimit snapshots in
          if bool_decide (kept = ∅) then None else Some kept) c.

(** ** What the catalog helper computes *)

(** A storage element that [__getDataReplicasRM] skips. *)
Definition failover (active : bool) (se : string) : bool :=
  active && search "failover" (lower se).

(** The replicas of one file that are kept. *)
Definition usable_replicas (active : bool) (replicaDict : replicas) : replicas :=
  filter (λ kv, failover active kv.1 = false) replicaDict.

(** The files with a replica that is kept, each with those replicas. *)
Definition usable (active : bool) (successful : replicaMap) : replicaMap :=
  omap (λ replicaDict,
          let kept := usable_replicas active replicaDict in
          if bool_decide (kept = ∅) then None else Some kept) successful.

(** The files that the catalog reports as not existing, in the order of the
    ['Failed'] dict. *)
Definition missing (failed : gmap string string) : list string :=
  (filter (λ kv, search "No such file or directory" kv.2 = true) (map_to_list failed)).*1.

(** The bodies of the three loops of [__getDataReplicasRM]. *)
Definition keep_replica (active : bool) (lfn : string)
  : replicaMap → string * string → M replicaMap :=
  λ (dataReplicas : replicaMap) '(se, pfn),
    if active && search "failover" (lower se) then
      logMsg Warn "Ignoring failover replica for %s." ;;
      ret dataReplicas
    else
      let dataReplicas :=
        match dataReplicas !! lfn with
        | Some _ => dataReplicas
        | None => <[lfn := ∅]> dataReplicas
        end in
      ses ← subscript dataReplicas lfn;
      ret (<[lfn := <[se := pfn]> ses]> dataReplicas).

Definition keep_file (active : bool) : replicaMap → string * replicas → M replicaMap :=
  λ (dataReplicas : replicaMap) '((lfn, replicaDict) : string * replicas),
    foldM (keep_replica active lfn) dataReplicas (map_to_list replicaDict).

Definition note_missing : list string → string * string → M (list string) :=
  λ (missingLfns : list string) '(lfn, reason),
    if search "No such file or directory" reason then
      logMsg Warn "%s not found in the catalog." ;;
      ret (missingLfns ++ [lfn])
    else ret missingLfns.

(** A computation that leaves a component [proj] of the store as it found
    it, whatever its outcome. *)
Definition preserves {S X A} (proj : S → X) (c : ST S A) : Prop :=
  ∀ st, proj (c st).2 = proj st.

(** What [pickle.load] gives for the cache file: its content, or the
    empty cache of the [except] branch of [__readCache]. *)
Definition on_disk (f : file) : cache :=
  match f with
  | Pickled c => c
  | Unreadable => ∅
  end.

(** The parts of the store that the dispatcher and the pipeline work on,
    and the record of remote calls, are left as they were. *)
Definition keeps_dispatcher_state {A} (c : M A) : Prop :=
  preserves transQueue c ∧ preserves transInQueue c ∧ preserves unusedFiles c ∧
  preserves replicaCacheValidity c ∧ preserves history c.

(** Processing methods that touch neither the queue nor the in-flight
    list. *)
Definition keeps_queues (process : transDict → M (result unit)) : Prop :=
  ∀ d st, transInQueue (process d st).2 = transInQueue st
          ∧ transQueue (process d st).2 = transQueue st.

(** What the poller and one worker do between two turns. *)
Inductive turn (W : world) : agent → agent → Prop :=
| turn_execute st :
    turn W st (execute W st).2
| turn_worker process n st :
    keeps_queues process →
    turn W st (_execute process n st).2.

Inductive at_turn (W : world) : agent → Prop :=
| at_turn_init o disk : at_turn W (__init__ o disk)
| at_turn_next st st' : at_turn W st → turn W st st' → at_turn W st'.

(** The number of files in the groups whose submission answers ['OK'],
    when [tasks] are submitted in order from the history [h]. *)
Fixpoint submitted_files (W : world) (transID : Z) (h : list event)
    (tasks : list (string * list string)) : Z :=
  match tasks with
  | [] => 0
  | (se, lfns) :: tasks' =>
      let ok := OK (transfClient_addTaskForTransformation W h transID lfns se) in
      let e := Event (Remote.addTaskForTransformation transID lfns se) ok in
      (if ok then Z.of_nat (length lfns) else 0)
      + submitted_files W transID (h ++ [e]) tasks'
  end.

(** ** Sample worlds and stores *)

Module Sample.

(** A world where every service answers ['OK'] with nothing to report. *)
Definition quiet : world :=
  {| transDB_getTransformations := λ _ _ _, S_OK [];
     transfClient_getTransformation :=
       λ _ name, S_OK (TransDict 101 "Replication" "Active" None);
     transfClient_getTransformationFiles := λ _ _ _, S_OK [];
     transfClient_setTransformationParameter := λ _ _ _ _, S_OK tt;
     transfClient_addTaskForTransformation := λ _ _ _ _, S_OK tt;
     transfClient_setFileStatusForTransformation := λ _ _ _ _, S_OK tt;
     rm_getActiveReplicas := λ _ _, S_OK (CatalogReply ∅ ∅);
     rm_getReplicas := λ _ _, S_OK (CatalogReply ∅ ∅);
     plugin_create := λ _ _, S_OK tt;
     plugin_generateTasks := λ _ _ _ _ _, S_OK [];
     utcnow := λ _, 1000000000000;
     random := λ _, Draw 0 1;
     pickle_dump := λ _, None |}.

Definition defaults : options := Options None None None None.

(** The agent as constructed, without a cache file to load. *)
Definition fresh : agent := __init__ defaults Unreadable.

(** The agent configured for the single transformation ["T101"]. *)
Definition named : agent :=
  __init__ (Options None None None (Some "T101")) Unreadable.

Definition t101 : transDict := TransDict 101 "Replication" "Active" None.

(** [t101] put in the queue by the poller. *)
Definition queued : agent := (enqueue 0 t101 fresh).2.
Definition t102 : transDict := TransDict 102 "MCSimulation" "Flush" None.

(** A cache for transformation 7 with a snapshot taken at time 10 and a
    recent one. *)
Definition old_and_new : cache :=
  {[ 7 := {[ 10 := {[ "a" := {[ "SE1" := "pfn-a" ]} ]};
             999999999999 := {[ "b" := {[ "SE2" := "pfn-b" ]} ]} ]} ]}.

Definition cached : agent := set_replicaCache old_and_new fresh.

(** A registry that lists two unused files for every transformation. *)
Definition two_unused : world :=
  {| transDB_getTransformations := transDB_getTransformations quiet;
     transfClient_getTransformation := transfClient_getTransformation quiet;
     transfClient_getTransformationFiles :=
       λ _ _ _, S_OK [TransFile "f1"; TransFile "f2"];
     transfClient_setTransformationParameter :=
       transfClient_setTransformationParameter quiet;
     transfClient_addTaskForTransformation := transfClient_addTaskForTransformation quiet;
     transfClient_setFileStatusForTransformation :=
       transfClient_setFileStatusForTransformation quiet;
     rm_getActiveReplicas := rm_getActiveReplicas quiet;
     rm_getReplicas := rm_getReplicas quiet;
     plugin_create := plugin_create quiet;
     plugin_generateTasks := plugin_generateTasks quiet;
     utcnow := utcnow quiet;
     random := random quiet;
     pickle_dump := pickle_dump quiet |}.

(** A catalog that knows two replicas of ["a"], one of them on a failover
    element, only a failover replica of ["b"], and reports ["c"] as not
    existing and ["d"] as unreachable. *)
Definition reply : catalogReply :=
  {| Successful := {[ "a" := {[ "CERN-disk" := "pfn-a1"; "CERN-FAILOVER" := "pfn-a2" ]};
                      "b" := {[ "Failover-SE" := "pfn-b" ]} ]};
     Failed := {[ "c" := "No such file or directory"; "d" := "Connection timed out" ]} |}.

Definition with_catalog : world :=
  {| transDB_getTransformations := transDB_getTransformations quiet;
     transfClient_getTransformation := transfClient_getTransformation quiet;
     transfClient_getTransformationFiles := λ _ _ _, S_ERROR "registry down";
     transfClient_setTransformationParameter :=
       transfClient_setTransformationParameter quiet;
     transfClient_addTaskForTransformation := transfClient_addTaskForTransformation quiet;
     transfClient_setFileStatusForTransformation := λ _ _ _ _, S_ERROR "registry down";
     rm_getActiveReplicas := λ _ _, S_OK reply;
     rm_getReplicas := λ _ _, S_ERROR "catalog down";
     plugin_create := plugin_create quiet;
     plugin_generateTasks := plugin_generateTasks quiet;
     utcnow := utcnow quiet;
     random := random quiet;
     pickle_dump := λ _, Some Unreadable |}.

(** The agent after a cycle that left two unused files for [t101]. *)
Definition seen_two : agent := set_unusedFiles {[ 101 := 2 ]} fresh.

End Sample.

(** * Properties *)

(** ** Sampling *)

Lemma slice_window {A} (l : list A) (i k : Z) :
  0 ≤ i → 0 ≤ k → i + k ≤ Z.of_nat (length l) →
  slice l i (i + k) = take (Z.to_nat k) (drop (Z.to_nat i) l).
Proof.
  intros Hi Hk Hlen. unfold slice, clamp_index.
  destruct (Z.ltb_spec i 0) as [?|_]; [lia|].
  destruct (Z.ltb_spec (i + k) 0) as [?|_]; [lia|].
  rewrite (Z.min_l (i + k)), (Z.min_l i) by lia. f_equal. lia.
Qed.

Lemma slice_all {A} (l : list A) (j : Z) :
  Z.of_nat (length l) ≤ j → slice l 0 j = l.
Proof.
  intros Hj. unfold slice, clamp_index.
  destruct (Z.ltb_spec 0 0) as [?|_]; [lia|].
  destruct (Z.ltb_spec j 0) as [?|_]; [lia|].
  rewrite (Z.min_l 0), (Z.min_r j) by lia. simpl. rewrite drop_0.
  apply take_ge. lia.
Qed.

Lemma int_uniform_range (n : Z) (u : draw) :
  unit_draw u → 0 ≤ n → 0 ≤ int_uniform n u ≤ n.
Proof.
  intros [[Hn Hd] Hpos] Hn0. unfold int_uniform.
  rewrite Z.quot_div_nonneg by nia. split.
  - apply Z.div_pos; nia.
  - apply Z.div_le_upper_bound; nia.
Qed.

(** Above the maximum the sample is a window of [maxFiles - 1] files that
    starts within the first [len - maxFiles] positions. *)
Lemma applyReduction_window {A} (maxFiles : Z) (u : draw) (lfns : list A) :
  unit_draw u → 1 ≤ maxFiles → maxFiles < Z.of_nat (length lfns) →
  ∃ firstFile,
    0 ≤ firstFile ≤ Z.of_nat (length lfns) - maxFiles ∧
    __applyReduction maxFiles u lfns
      = take (Z.to_nat (maxFiles - 1)) (drop (Z.to_nat firstFile) lfns) ∧
    Z.of_nat (length (__applyReduction maxFiles u lfns)) = maxFiles - 1.
Proof.
  intros Hu HM Hlen. unfold __applyReduction.
  destruct (Z.leb_spec (Z.of_nat (length lfns)) maxFiles) as [?|_]; [lia|].
  pose proof (int_uniform_range (Z.of_nat (length lfns) - maxFiles) u Hu) as Hf.
  set (firstFile := int_uniform _ u) in *.
  assert (0 ≤ firstFile ≤ Z.of_nat (length lfns) - maxFiles) as Hr by (apply Hf; lia).
  exists firstFile. split; [exact Hr|].
  replace (firstFile + maxFiles - 1) with (firstFile + (maxFiles - 1)) by lia.
  rewrite slice_window by lia. split; [reflexivity|].
  rewrite length_take, length_drop. lia.
Qed.

(** Strictly below the maximum nothing is removed. *)
Lemma applyReduction_below {A} (maxFiles : Z) (u : draw) (lfns : list A) :
  Z.of_nat (length lfns) < maxFiles → __applyReduction maxFiles u lfns = lfns.
Proof.
  intros Hlen. unfold __applyReduction.
  destruct (Z.leb_spec (Z.of_nat (length lfns)) maxFiles) as [_|?]; [|lia].
  apply slice_all. lia.
Qed.

(** With exactly [maxFiles] files the guard keeps [firstFile = 0] and the
    slice still stops one short: the last file is left out. *)
Lemma applyReduction_at_max {A} (maxFiles : Z) (u : draw) (lfns : list A) :
  Z.of_nat (length lfns) = maxFiles → 1 ≤ maxFiles →
  __applyReduction maxFiles u lfns = take (length lfns - 1)%nat lfns ∧
  length (__applyReduction maxFiles u lfns) = (length lfns - 1)%nat.
Proof.
  intros Hlen HM. unfold __applyReduction.
  destruct (Z.leb_spec (Z.of_nat (length lfns)) maxFiles) as [_|?]; [|lia].
  replace (0 + maxFiles - 1) with (0 + (maxFiles - 1)) by lia.
  rewrite slice_window by lia. simpl. rewrite drop_0.
  replace (Z.to_nat (maxFiles - 1)) with (length lfns - 1)%nat by lia.
  split; [reflexivity|]. rewrite length_take. lia.
Qed.

(** C2, at a list of exactly [maxFiles] files: three files with
    [maxFiles = 3] are within the maximum, and the sampling step returns two
    of them instead of the full list. *)
Theorem applyReduction_cuts_list_of_max_length :
  Z.of_nat (length ["f1"; "f2"; "f3"]) ≤ 3 ∧
  __applyReduction 3 (Draw 0 1) ["f1"; "f2"; "f3"] = ["f1"; "f2"] ∧
  __applyReduction 3 (Draw 0 1) ["f1"; "f2"; "f3"] ≠ ["f1"; "f2"; "f3"].
Proof. split; [simpl; lia|]. split; [reflexivity|discriminate]. Qed.

(** ** Running the monad *)

Ltac run :=
  repeat (progress (cbn [fst snd] in *;
    unfold mbind, mret, ST_bind, ST_ret, bind, ret, get, modify, raise, logMsg,
           try_except, try_except_Exception, try_finally in *; cbn beta iota in *)).

(** ** The pipeline stops at its first statement *)

(** C9: whatever the descriptor and the store, [processTransformation]
    raises [TypeError] when it calls [_getTransformationFiles] without the
    [transDict] argument; the store is untouched, so no remote call was
    issued and no later step of the pipeline ran. *)
Theorem processTransformation_raises (W : world) (transDict : transDict) (st : agent) :
  processTransformation W transDict st
    = (Raise (TypeError "too few arguments given"), st).
Proof. reflexivity. Qed.

Lemma processTransformation_keeps (W : world) :
  keeps_transInQueue (processTransformation W).
Proof. intros d st. reflexivity. Qed.

(** ** Fetching the transformations *)

Lemma transDB_unbound : "transDB" ∉ instance_attributes.
Proof. apply (bool_decide_unpack _). vm_compute. exact I. Qed.

(** C10: [transDB] is not bound on the agent; in the default mode
    (['Transformation'] equal to ['All']) [getTransformations] raises
    [AttributeError] before any remote call; in the mode for one named
    transformation it returns the descriptor the client answers, as a
    one-element list. *)
Theorem getTransformations_modes (W : world) (st : agent) :
  ("transDB" ∉ instance_attributes) ∧
  (default "All" (opt_Transformation st) = "All" →
   getTransformations W st
     = (Raise (AttributeError "transDB"),
        set_log (log st ++ [(Info, "getTransformations: Initializing general purpose agent.")])
                st)) ∧
  (∀ transName transformation,
     opt_Transformation st = Some transName → transName ≠ "All" →
     transfClient_getTransformation W (history st) transName = S_OK transformation →
     (getTransformations W st).1 = Return (S_OK [transformation])).
Proof.
  split; [exact transDB_unbound|]. split.
  - intros Hall. unfold getTransformations. run. rewrite Hall. reflexivity.
  - intros transName transformation Hopt Hne Hans.
    unfold getTransformations. run. rewrite Hopt. simpl.
    destruct (String.eqb_spec transName "All") as [?|_]; [contradiction|].
    unfold remote. run. simpl. rewrite Hans. reflexivity.
Qed.

Lemma getTransformations_modes_witness :
  getTransformations Sample.quiet Sample.fresh
    = (Raise (AttributeError "transDB"),
       set_log (log Sample.fresh
                ++ [(Info, "getTransformations: Initializing general purpose agent.")])
               Sample.fresh) ∧
  (getTransformations Sample.quiet Sample.named).1 = Return (S_OK [Sample.t101]).
Proof.
  split.
  - apply (proj1 (proj2 (getTransformations_modes Sample.quiet Sample.fresh))).
    reflexivity.
  - apply (proj2 (proj2 (getTransformations_modes Sample.quiet Sample.named))
             "T101" Sample.t101); [reflexivity | discriminate | reflexivity].
Defined.

(** The poller inherits the failure: in the default mode [execute] raises as
    well. *)
Lemma execute_default_mode_raises (W : world) (st : agent) :
  default "All" (opt_Transformation st) = "All" →
  (execute W st).1 = Raise (AttributeError "transDB").
Proof.
  intros Hall. unfold execute. run.
  rewrite (proj1 (proj2 (getTransformations_modes W st)) Hall). reflexivity.
Qed.

(** ** The in-flight list *)

Lemma remove_first_elem_of (x : Z) (l : list Z) :
  x ∈ l → ∃ l', remove_first x l = Some l'.
Proof.
  induction l as [|y l IH]; intros Hin.
  - inversion Hin.
  - simpl. case_bool_decide as Hy; [eauto|].
    destruct IH as [l' ->]; [|eauto].
    inversion Hin; subst; [congruence|assumption].
Qed.

Lemma remove_first_sub (x : Z) (l l' : list Z) :
  remove_first x l = Some l' → ∀ y, y ∈ l' → y ∈ l.
Proof.
  revert l'. induction l as [|z l IH]; intros l' Hrm y Hy; simpl in Hrm.
  - discriminate.
  - case_bool_decide as Hz.
    + injection Hrm as <-. by right.
    + destruct (remove_first x l) as [r|] eqn:Hr; [|discriminate].
      injection Hrm as <-. inversion Hy; subst; [left|right; eauto].
Qed.

Lemma remove_first_NoDup (x : Z) (l l' : list Z) :
  NoDup l → remove_first x l = Some l' → NoDup l' ∧ x ∉ l'.
Proof.
  revert l'. induction l as [|z l IH]; intros l' Hnd Hrm; simpl in Hrm.
  - discriminate.
  - apply NoDup_cons in Hnd as [Hz Hnd]. case_bool_decide as Hzx.
    + injection Hrm as <-. subst z. done.
    + destruct (remove_first x l) as [r|] eqn:Hr; [|discriminate].
      injection Hrm as <-. destruct (IH r Hnd eq_refl) as [Hndr Hxr]. split.
      * apply NoDup_cons. split; [|done].
        intros Hzr. apply Hz. eapply remove_first_sub; eauto.
      * intros Hx. inversion Hx; subst; [congruence|contradiction].
Qed.

(** [enqueue] appends the identifier only when it is not in the list. *)
Lemma enqueue_transInQueue (count : Z) (d : transDict) (st : agent) :
  transInQueue (enqueue count d st).2
    = if bool_decide (TransformationID d ∈ transInQueue st) then transInQueue st
      else transInQueue st ++ [TransformationID d].
Proof. unfold enqueue. run. by case_bool_decide. Qed.

Lemma enqueue_NoDup (count : Z) (d : transDict) (st : agent) :
  NoDup (transInQueue st) → NoDup (transInQueue (enqueue count d st).2).
Proof.
  intros Hnd. rewrite enqueue_transInQueue. case_bool_decide as Hin; [done|].
  apply NoDup_app. split_and!; [done| |apply NoDup_singleton].
  intros x Hx Hx'. apply list_elem_of_singleton in Hx'. by subst.
Qed.

Lemma enqueue_returns (count : Z) (d : transDict) (st : agent) :
  ∃ count', (enqueue count d st).1 = Return count'.
Proof. unfold enqueue. run. case_bool_decide; eauto. Qed.

Lemma foldM_enqueue_NoDup (ds : list transDict) (count : Z) (st : agent) :
  NoDup (transInQueue st) → NoDup (transInQueue (foldM enqueue count ds st).2).
Proof.
  revert count st. induction ds as [|d ds IH]; intros count st Hnd; [done|].
  simpl. unfold bind.
  destruct (enqueue_returns count d st) as [count' Hret].
  pose proof (enqueue_NoDup count d st Hnd) as Hnd'.
  destruct (enqueue count d st) as [o st']. simpl in *. subst o. by apply IH.
Qed.

Lemma remote_transInQueue {A} (attr : string) (c : Remote.call)
    (answer : list event → result A) (st : agent) :
  transInQueue (remote attr c answer st).2 = transInQueue st.
Proof. unfold remote, getattr. case_bool_decide; reflexivity. Qed.

Lemma getTransformations_transInQueue (W : world) (st : agent) :
  transInQueue (getTransformations W st).2 = transInQueue st.
Proof.
  unfold getTransformations. run. destruct (String.eqb _ _).
  - pose proof (remote_transInQueue "transDB"
        (Remote.getTransformations (transformationStatus st) (transformationTypes st))
        (λ h, transDB_getTransformations W h (transformationStatus st)
                (transformationTypes st))
        (set_log (log st ++ [(Info, "getTransformations: Initializing general purpose agent.")])
                 st)) as Hq.
    destruct (remote _ _ _ _) as [[[v|msg]|e] st']; simpl in *; exact Hq.
  - pose proof (remote_transInQueue "transfClient"
        (Remote.getTransformation (default "All" (opt_Transformation st)))
        (λ h, transfClient_getTransformation W h (default "All" (opt_Transformation st)))
        (set_log (log st ++ [(Info, "getTransformations: Initializing for transformation %s.")])
                 st)) as Hq.
    destruct (remote _ _ _ _) as [[[v|msg]|e] st']; simpl in *; exact Hq.
Qed.

Lemma execute_NoDup (W : world) (st : agent) :
  NoDup (transInQueue st) → NoDup (transInQueue (execute W st).2).
Proof.
  intros Hnd. unfold execute. run.
  pose proof (getTransformations_transInQueue W st) as Hq.
  destruct (getTransformations W st) as [[[ds|msg]|e] st']; simpl in *.
  - rewrite <- Hq in Hnd. pose proof (foldM_enqueue_NoDup ds 0 st' Hnd) as Hnd'.
    destruct (foldM enqueue 0 ds st') as [[n|e] st'']; simpl in *; exact Hnd'.
  - by rewrite Hq.
  - by rewrite Hq.
Qed.

(** The [finally] clause never raises, keeps the list duplicate-free, and
    on a duplicate-free list leaves the identifier absent. *)
Lemma release_spec (transID : Z) (st : agent) :
  NoDup (transInQueue st) →
  (release transID st).1 = Return tt ∧
  NoDup (transInQueue (release transID st).2) ∧
  transID ∉ transInQueue (release transID st).2.
Proof.
  intros Hnd. unfold release. run. case_bool_decide as Hin; [|done].
  destruct (remove_first_elem_of _ _ Hin) as [l' Hrm]. rewrite Hrm. simpl.
  destruct (remove_first_NoDup _ _ _ Hnd Hrm). done.
Qed.

(** One turn of the worker loop, whatever the pipeline did: the turn ends
    normally, except that an exception of the pipeline that does not derive
    from [Exception] goes on to the caller; the [finally] clause has run in
    every case. *)
Lemma execute_body_spec (process : transDict → M (result unit)) (d : transDict)
    (st : agent) :
  keeps_transInQueue process → NoDup (transInQueue st) →
  (_execute_body process d st).1
    = match (process d (set_log (log st ++ [(Info, "Processing transformation %s.")])
                                st)).1 with
      | Return _ => Return tt
      | Raise e => if is_Exception e then Return tt else Raise e
      end ∧
  NoDup (transInQueue (_execute_body process d st).2) ∧
  TransformationID d ∉ transInQueue (_execute_body process d st).2.
Proof.
  intros Hkeep Hnd. unfold _execute_body. run.
  set (st1 := set_log _ st).
  pose proof (Hkeep d st1) as Hq.
  destruct (process d st1) as [[[[]|msg]|e] st2]; simpl in Hq |- *;
    [| |destruct (is_Exception e)].
  all: match goal with
       | |- context [release ?i ?s] =>
           destruct (release_spec i s) as (Hr & Hnd' & Hout);
           [simpl; by rewrite Hq|];
           destruct (release i s) as [[[]|e'] s']; simpl in *; try discriminate; done
       end.
Qed.

Lemma execute_turns_NoDup (process : transDict → M (result unit)) (n : nat) :
  keeps_transInQueue process →
  ∀ st, NoDup (transInQueue st) → NoDup (transInQueue (_execute process n st).2).
Proof.
  intros Hkeep. induction n as [|n IH]; intros st Hnd; [done|].
  cbn [_execute]. run. destruct (transQueue st) as [|d queue]; [done|]. run.
  destruct (execute_body_spec process d (set_transQueue queue st) Hkeep Hnd)
    as (_ & Hnd' & _).
  destruct (_execute_body process d (set_transQueue queue st)) as [[[]|e] st'];
    simpl in *; [|exact Hnd'].
  by apply IH.
Qed.

Lemma step_NoDup (W : world) (st st' : agent) :
  step W st st' → NoDup (transInQueue st) → NoDup (transInQueue st').
Proof.
  intros Hstep Hnd.
  destruct Hstep
    as [st|count d st|process d st Hk|process n st Hk|process d st Hk|i st].
  - by apply execute_NoDup.
  - by apply enqueue_NoDup.
  - by apply execute_body_spec.
  - by apply execute_turns_NoDup.
  - by rewrite Hk.
  - by apply release_spec.
Qed.

Lemma reachable_NoDup (W : world) (st : agent) :
  reachable W st → NoDup (transInQueue st).
Proof.
  induction 1 as [o disk|st st' _ IH Hstep].
  - unfold __init__, __readCache. run. destruct disk; simpl; apply NoDup_nil_2.
  - by eapply step_NoDup.
Qed.

(** C1: in every store the agent can reach, under any interleaving of the
    poller and the workers, the in-flight list holds no identifier twice;
    [execute] appends an identifier only when it is absent; and a turn of
    the worker loop, whether the pipeline returned ['OK'], returned an error
    or raised any exception, ends with the identifier out of the list.  The
    turn ends normally, except when the pipeline raised an exception that
    does not derive from [Exception]: that one leaves the turn, after the
    [finally] clause has removed the identifier. *)
Theorem transInQueue_at_most_once (W : world) (st : agent)
    (process : transDict → M (result unit)) (transDict : transDict) :
  reachable W st → keeps_transInQueue process →
  NoDup (transInQueue st) ∧
  (∀ count,
     transInQueue (enqueue count transDict st).2
       = if bool_decide (TransformationID transDict ∈ transInQueue st)
         then transInQueue st
         else transInQueue st ++ [TransformationID transDict]) ∧
  (_execute_body process transDict st).1
    = match (process transDict
               (set_log (log st ++ [(Info, "Processing transformation %s.")]) st)).1 with
      | Return _ => Return tt
      | Raise e => if is_Exception e then Return tt else Raise e
      end ∧
  NoDup (transInQueue (_execute_body process transDict st).2) ∧
  TransformationID transDict ∉ transInQueue (_execute_body process transDict st).2.
Proof.
  intros Hreach Hkeep. pose proof (reachable_NoDup W st Hreach) as Hnd.
  split; [exact Hnd|]. split; [intros count; apply enqueue_transInQueue|].
  by apply execute_body_spec.
Qed.

Lemma transInQueue_at_most_once_witness :
  NoDup (transInQueue Sample.queued) ∧
  (∀ count,
     transInQueue (enqueue count Sample.t101 Sample.queued).2
       = if bool_decide (TransformationID Sample.t101 ∈ transInQueue Sample.queued)
         then transInQueue Sample.queued
         else transInQueue Sample.queued ++ [TransformationID Sample.t101]) ∧
  (_execute_body (processTransformation Sample.quiet) Sample.t101 Sample.queued).1
    = Return tt ∧
  NoDup (transInQueue
           (_execute_body (processTransformation Sample.quiet) Sample.t101 Sample.queued).2) ∧
  TransformationID Sample.t101
    ∉ transInQueue
        (_execute_body (processTransformation Sample.quiet) Sample.t101 Sample.queued).2.
Proof.
  destruct (transInQueue_at_most_once Sample.quiet Sample.queued
              (processTransformation Sample.quiet) Sample.t101)
    as (Hnd & Henqueue & Hturn & Hnd' & Hout).
  - apply (reachable_step Sample.quiet Sample.fresh).
    + apply (reachable_init Sample.quiet Sample.defaults Unreadable).
    + apply (step_enqueue Sample.quiet 0 Sample.t101 Sample.fresh).
  - intros d st. reflexivity.
  - split; [exact Hnd|]. split; [exact Henqueue|]. split; [exact Hturn|].
    split; [exact Hnd'|exact Hout].
Defined.

(** ** Task submission and the Flush transition *)

Lemma transfClient_bound : "transfClient" ∈ instance_attributes.
Proof. apply (bool_decide_unpack _). vm_compute. exact I. Qed.

Lemma rm_bound : "rm" ∈ instance_attributes.
Proof. apply (bool_decide_unpack _). vm_compute. exact I. Qed.

(** A call on a client that the agent holds goes through and is entered in
    the history with its answer. *)
Lemma remote_bound {A} (attr : string) (c : Remote.call)
    (answer : list event → result A) (st : agent) :
  attr ∈ instance_attributes →
  remote attr c answer st
    = (Return (answer (history st)),
       set_history (history st ++ [Event c (OK (answer (history st)))]) st).
Proof. intros Hin. unfold remote, getattr. by rewrite bool_decide_eq_true_2. Qed.

Lemma addTask_loop (W : world) (transID : Z) (tasks : list (string * list string))
    (allCreated : bool) (created unused : Z) (st : agent) :
  ∃ created' unused' st',
    foldM (addTask W transID) (allCreated, created, unused) tasks st
      = (Return (allCreated && forallb ev_ok (submissions W transID (history st) tasks),
                 created', unused'), st') ∧
    history st' = history st ++ submissions W transID (history st) tasks.
Proof.
  revert allCreated created unused st.
  induction tasks as [|[se lfns] tasks IH]; intros allCreated created unused st.
  - exists created, unused, st. simpl. unfold ret.
    by rewrite andb_true_r, app_nil_r.
  - cbn [foldM submissions]. unfold bind at 1. unfold addTask at 1. run.
    rewrite remote_bound by exact transfClient_bound.
    destruct (transfClient_addTaskForTransformation W (history st) transID lfns se)
      as [[]|msg] eqn:Hans; cbn [OK forallb ev_ok].
    + edestruct IH as (created' & unused' & st' & -> & Hh). simpl in Hh.
      exists created', unused', st'. split; [reflexivity|].
      by rewrite Hh, <- app_assoc.
    + edestruct IH as (created' & unused' & st' & -> & Hh). simpl in Hh.
      exists created', unused', st'. rewrite andb_false_r. split; [reflexivity|].
      by rewrite Hh, <- app_assoc.
Qed.

Lemma submissions_calls (W : world) (transID : Z) (h : list event)
    (tasks : list (string * list string)) (e : event) :
  e ∈ submissions W transID h tasks →
  ∃ se lfns, ev_call e = Remote.addTaskForTransformation transID lfns se.
Proof.
  revert h. induction tasks as [|[se lfns] tasks IH]; intros h Hin; simpl in Hin.
  - inversion Hin.
  - inversion Hin; subst; [by exists se, lfns|eauto].
Qed.

(** C3: for a descriptor with status ['Flush'], the submission step always
    returns [S_OK()]; the request that sets the status to ['Active'] is in
    the calls of the cycle exactly when every group submission answered
    ['OK'], so in particular when there is no group at all; and when that
    request fails the failure is logged as an error, nothing more. *)
Theorem createTasks_flush (W : world) (transDict : transDict)
    (tasks : list (string * list string)) (unusedFiles0 : Z) (st : agent) :
  Status transDict = "Flush" →
  let transID := TransformationID transDict in
  let subs := submissions W transID (history st) tasks in
  let activate := Remote.setTransformationParameter transID "Status" "Active" in
  let answer :=
    transfClient_setTransformationParameter W (history st ++ subs) transID "Status" "Active" in
  ∃ st',
    createTasks W transDict tasks unusedFiles0 st = (Return (S_OK tt), st') ∧
    history st'
      = history st ++ subs
        ++ (if forallb ev_ok subs then [Event activate (OK answer)] else []) ∧
    ((∃ e, e ∈ drop (length (history st)) (history st') ∧ ev_call e = activate)
     ↔ ∀ e, e ∈ subs → ev_ok e = true) ∧
    (tasks = [] → history st' = history st ++ [Event activate (OK answer)]) ∧
    ((∀ e, e ∈ subs → ev_ok e = true) → OK answer = false →
     (Error, "Failed to update transformation status to 'Active': %s.") ∈ log st').
Proof.
  intros Hflush transID subs activate answer.
  assert (Hall : forallb ev_ok subs = true ↔ ∀ e, e ∈ subs → ev_ok e = true).
  { rewrite forallb_forall. split; intros H e He; apply H; by apply list_elem_of_In. }
  assert (Hnew : ∀ st' : agent,
            history st'
              = history st ++ subs
                ++ (if forallb ev_ok subs then [Event activate (OK answer)] else []) →
            ((∃ e, e ∈ drop (length (history st)) (history st') ∧ ev_call e = activate)
             ↔ ∀ e, e ∈ subs → ev_ok e = true) ∧
            (tasks = [] → history st' = history st ++ [Event activate (OK answer)])).
  { intros st' Hh. split.
    - rewrite Hh, drop_app_length, <- Hall. split.
      + intros (e & He & Hcall). destruct (forallb ev_ok subs); [done|].
        rewrite app_nil_r in He.
        destruct (submissions_calls _ _ _ _ _ He) as (se & lfns & Hc).
        unfold activate in Hcall. congruence.
      + intros ->. exists (Event activate (OK answer)). split; [|done].
        apply elem_of_app. right. apply list_elem_of_singleton. done.
    - intros ->. rewrite Hh. unfold subs, answer. simpl. done. }
  unfold createTasks. fold transID. unfold mbind, ST_bind, bind at 1.
  destruct (addTask_loop W transID tasks true 0 unusedFiles0 st)
    as (created' & unused' & st1 & -> & Hh1). fold subs in Hh1 |- *.
  cbn [andb]. rewrite Hflush. simpl String.eqb. cbn [andb].
  assert (Hframe : ∀ s : agent, history s = history st1 →
     ∃ st', ((modify (λ st0, set_unusedFiles (<[transID:=unused']> (unusedFiles st0)) st0) ;;
              (if forallb ev_ok subs
               then res ← remote "transfClient" activate
                            (λ h, transfClient_setTransformationParameter W h transID
                                    "Status" "Active");
                    match res with
                    | S_OK _ => logMsg Info "Updated transformation status to 'Active'."
                    | S_ERROR _ =>
                        logMsg Error
                          "Failed to update transformation status to 'Active': %s."
                    end
               else ret tt) ;;
              ret (S_OK tt)) s : outcome (result unit) * agent)
            = (Return (S_OK tt), st') ∧
           history st'
             = history st ++ subs
               ++ (if forallb ev_ok subs then [Event activate (OK answer)] else []) ∧
           ((∀ e, e ∈ subs → ev_ok e = true) → OK answer = false →
            (Error, "Failed to update transformation status to 'Active': %s.") ∈ log st')).
  { intros s Hs. run. destruct (forallb ev_ok subs) eqn:Hok.
    - rewrite remote_bound by exact transfClient_bound. cbn [history set_unusedFiles].
      rewrite Hs, Hh1. fold answer. clear Hnew. clearbody answer.
      destruct answer as [[]|msg]; run; eexists; split; try reflexivity;
        cbn [history set_log set_history log OK]; rewrite ?Hs, ?Hh1, <- ?app_assoc;
        (split; [reflexivity|]); intros _ Hfail; try discriminate.
      apply elem_of_app. right. apply list_elem_of_singleton. done.
    - eexists. split; [reflexivity|]. cbn [history set_unusedFiles].
      rewrite Hs, Hh1, app_nil_r. split; [reflexivity|].
      intros Hok'. apply Hall in Hok'. congruence. }
  destruct (created' =? 0).
  - destruct (Hframe st1 eq_refl) as (st' & Hrun & Hh & Hlog).
    exists st'. split; [exact Hrun|]. split; [exact Hh|].
    destruct (Hnew st' Hh). done.
  - destruct (Hframe (set_log (log st1
        ++ [(Info, "Successfully created %d tasks for transformation.")]) st1) eq_refl)
      as (st' & Hrun & Hh & Hlog).
    exists st'. split; [exact Hrun|]. split; [exact Hh|].
    destruct (Hnew st' Hh). done.
Qed.

Lemma createTasks_flush_witness :
  ∃ st',
    createTasks Sample.quiet Sample.t102 [("SE1", ["f1"; "f2"])] 3 Sample.fresh
      = (Return (S_OK tt), st') ∧
    history st'
      = [Event (Remote.addTaskForTransformation 102 ["f1"; "f2"] "SE1") true;
         Event (Remote.setTransformationParameter 102 "Status" "Active") true].
Proof.
  destruct (createTasks_flush Sample.quiet Sample.t102 [("SE1", ["f1"; "f2"])] 3
              Sample.fresh eq_refl) as (st' & Hrun & Hh & _).
  exists st'. split; [exact Hrun|exact Hh].
Defined.

(** ** Loops *)

Lemma forM__nil {S A} (body : A → ST S unit) (st : S) :
  forM_ [] body st = (Return tt, st).
Proof. reflexivity. Qed.

Lemma forM__cons {S A} (x : A) (l : list A) (body : A → ST S unit) (st : S) :
  forM_ (x :: l) body st
  = match body x st with
    | (Return _, st') => forM_ l body st'
    | (Raise e, st') => (Raise e, st')
    end.
Proof.
  unfold forM_. simpl. unfold bind.
  destruct (body x st) as [[[]|e] st']; reflexivity.
Qed.

(** ** The eviction pass *)

Lemma clean_snapshot_spec (timeLimit transID updateTime : Z) (st : agent)
    (snapshots : gmap Z replicaMap) (cachedReplicas : replicaMap) :
  replicaCache st !! transID = Some snapshots →
  snapshots !! updateTime = Some cachedReplicas →
  ∃ st',
    clean_snapshot timeLimit transID updateTime st = (Return tt, st') ∧
    history st' = history st ∧
    replicaCache st'
      = <[transID := if stale timeLimit updateTime cachedReplicas
                     then delete updateTime snapshots else snapshots]> (replicaCache st).
Proof.
  intros HT Hts. unfold clean_snapshot, subscript. run. rewrite HT. run.
  rewrite Hts. run. unfold stale.
  destruct ((updateTime <? timeLimit) || bool_decide (cachedReplicas = ∅)).
  - eexists. split; [reflexivity|]. split; reflexivity.
  - exists st. split; [reflexivity|]. split; [reflexivity|].
    by rewrite insert_id.
Qed.

Lemma clean_snapshots_loop (timeLimit transID : Z) (ks : list Z) :
  ∀ (st : agent) (snapshots : gmap Z replicaMap),
    replicaCache st !! transID = Some snapshots →
    NoDup ks → (∀ k, k ∈ ks → is_Some (snapshots !! k)) →
    ∃ st',
      forM_ ks (clean_snapshot timeLimit transID) st = (Return tt, st') ∧
      history st' = history st ∧
      replicaCache st'
        = <[transID := filter (λ kv, ¬ (kv.1 ∈ ks ∧ stale timeLimit kv.1 kv.2 = true))
                              snapshots]> (replicaCache st).
Proof.
  induction ks as [|k ks IH]; intros st snapshots HT Hnd Hks.
  - exists st. rewrite forM__nil. split; [reflexivity|]. split; [reflexivity|].
    rewrite (map_filter_id _ snapshots).
    + by rewrite insert_id.
    + intros i x _ [Hin _]. inversion Hin.
  - apply NoDup_cons in Hnd as [Hk Hnd].
    destruct (Hks k) as [snap Hsnap]; [left|].
    destruct (clean_snapshot_spec timeLimit transID k st snapshots snap HT Hsnap)
      as (st1 & Hrun & Hh1 & Hc1).
    rewrite forM__cons, Hrun.
    set (snapshots1 := if stale timeLimit k snap then delete k snapshots else snapshots)
      in Hc1.
    destruct (IH st1 snapshots1) as (st' & Hloop & Hh & Hc).
    + rewrite Hc1. apply lookup_insert_eq.
    + exact Hnd.
    + intros k' Hk'. unfold snapshots1. destruct (stale timeLimit k snap).
      * rewrite lookup_delete_ne by (intros ->; contradiction).
        apply Hks. by right.
      * apply Hks. by right.
    + exists st'. split; [exact Hloop|]. split; [congruence|].
      rewrite Hc, Hc1, insert_insert_eq. f_equal.
      apply map_eq. intros i. apply option_eq. intros x.
      rewrite !map_lookup_filter_Some. simpl. unfold snapshots1.
      destruct (stale timeLimit k snap) eqn:Hstale.
      * rewrite lookup_delete_Some. split.
        -- intros [[Hne Hi] Hn]. split; [exact Hi|].
           intros [Hin Hs]. apply Hn. split; [|exact Hs].
           inversion Hin; subst; [contradiction|assumption].
        -- intros [Hi Hn]. assert (k ≠ i) as Hne.
           { intros ->. apply Hn. split; [left|]. congruence. }
           split; [done|]. intros [Hin Hs]. apply Hn. split; [by right|exact Hs].
      * split.
        -- intros [Hi Hn]. split; [exact Hi|].
           intros [Hin Hs]. inversion Hin; subst; [congruence|].
           apply Hn. done.
        -- intros [Hi Hn]. split; [exact Hi|].
           intros [Hin Hs]. apply Hn. split; [by right|exact Hs].
Qed.

Lemma map_to_list_keys_lookup `{Countable K} {A} (m : gmap K A) (k : K) :
  k ∈ (map_to_list m).*1 ↔ is_Some (m !! k).
Proof.
  rewrite list_elem_of_fmap. split.
  - intros [[k' x] [-> Hin]]. apply elem_of_map_to_list in Hin. by exists x.
  - intros [x Hx]. exists (k, x). split; [done|]. by apply elem_of_map_to_list.
Qed.

Lemma clean_transformation_spec (timeLimit transID : Z) (st : agent)
    (snapshots : gmap Z replicaMap) :
  replicaCache st !! transID = Some snapshots →
  ∃ st',
    clean_transformation timeLimit transID st = (Return tt, st') ∧
    history st' = history st ∧
    replicaCache st'
      = if bool_decide (fresh_snapshots timeLimit snapshots = ∅)
        then delete transID (replicaCache st)
        else <[transID := fresh_snapshots timeLimit snapshots]> (replicaCache st).
Proof.
  intros HT. unfold clean_transformation.
  unfold mbind, ST_bind, bind at 1. unfold get at 1.
  unfold bind at 1. unfold subscript at 1. rewrite HT. unfold ret at 1.
  unfold bind at 1.
  destruct (clean_snapshots_loop timeLimit transID ((map_to_list snapshots).*1)
              st snapshots HT) as (st1 & -> & Hh1 & Hc1).
  { apply NoDup_fst_map_to_list. }
  { intros k. apply map_to_list_keys_lookup. }
  assert (filter (λ kv : Z * replicaMap,
                    ¬ (kv.1 ∈ (map_to_list snapshots).*1
                       ∧ stale timeLimit kv.1 kv.2 = true)) snapshots
          = fresh_snapshots timeLimit snapshots) as Hfilter.
  { unfold fresh_snapshots. apply map_filter_ext. intros i x Hi. simpl. split.
    - intros Hn. destruct (stale timeLimit i x); [|done].
      exfalso. apply Hn. split; [|done]. apply map_to_list_keys_lookup. by exists x.
    - intros -> [_ ?]. discriminate. }
  rewrite Hfilter in Hc1. run. unfold subscript.
  rewrite Hc1, lookup_insert_eq. run.
  case_bool_decide as Hempty.
  - eexists. split; [reflexivity|]. split; [exact Hh1|].
    cbn [replicaCache set_replicaCache]. by rewrite delete_insert_eq.
  - exists st1. split; [reflexivity|]. split; [exact Hh1|]. done.
Qed.

Lemma clean_loop (timeLimit : Z) (ts : list Z) :
  ∀ st : agent,
    NoDup ts → (∀ t, t ∈ ts → is_Some (replicaCache st !! t)) →
    ∃ st',
      forM_ ts (clean_transformation timeLimit) st = (Return tt, st') ∧
      history st' = history st ∧
      ∀ t, replicaCache st' !! t
           = if bool_decide (t ∈ ts) then evict timeLimit (replicaCache st) !! t
             else replicaCache st !! t.
Proof.
  induction ts as [|t0 ts IH]; intros st Hnd Hts.
  - exists st. rewrite forM__nil. split; [reflexivity|]. split; [reflexivity|].
    intros t. rewrite bool_decide_eq_false_2; [done|]. intros Hin. inversion Hin.
  - apply NoDup_cons in Hnd as [Ht0 Hnd].
    destruct (Hts t0) as [snapshots HT]; [left|].
    destruct (clean_transformation_spec timeLimit t0 st snapshots HT)
      as (st1 & Hrun & Hh1 & Hc1).
    rewrite forM__cons, Hrun.
    assert (Hother : ∀ t, t ≠ t0 → replicaCache st1 !! t = replicaCache st !! t).
    { intros t Hne. rewrite Hc1. case_bool_decide.
      - by rewrite lookup_delete_ne.
      - by rewrite lookup_insert_ne. }
    destruct (IH st1 Hnd) as (st' & Hloop & Hh & Hc).
    { intros t Ht. rewrite Hother; [apply Hts; by right|].
      intros ->. contradiction. }
    exists st'. split; [exact Hloop|]. split; [congruence|].
    intros t. rewrite Hc. destruct (decide (t = t0)) as [->|Hne].
    + rewrite (bool_decide_eq_false_2 _ Ht0), bool_decide_eq_true_2 by left.
      unfold evict. rewrite lookup_omap, HT, Hc1. simpl.
      case_bool_decide.
      * apply lookup_delete_eq.
      * apply lookup_insert_eq.
    + assert (bool_decide (t ∈ t0 :: ts) = bool_decide (t ∈ ts)) as ->.
      { apply bool_decide_ext. rewrite elem_of_cons.
        split; [intros [?|?]; [contradiction|done]|by right]. }
      destruct (bool_decide (t ∈ ts)).
      * unfold evict. rewrite !lookup_omap, Hother by done. reflexivity.
      * by apply Hother.
Qed.

Lemma writeCache_spec (W : world) (st : agent) :
  ∃ st',
    __writeCache W st = (Return tt, st') ∧
    history st' = history st ∧
    replicaCache st' = replicaCache st ∧
    match pickle_dump W (history st) with
    | None => cacheFile st' = Pickled (replicaCache st)
    | Some residue =>
        cacheFile st' = residue ∧
        (Error, "Could not write replica cache file %s") ∈ log st'
    end.
Proof.
  unfold __writeCache. run. destruct (pickle_dump W (history st)) as [residue|].
  - eexists. split; [reflexivity|]. split; [reflexivity|]. split; [reflexivity|].
    split; [reflexivity|]. cbn [log set_log].
    apply elem_of_app. right. by apply list_elem_of_singleton.
  - eexists. split; [reflexivity|]. done.
Qed.

(** The pass never raises; it turns the cache into [evict] of it and then
    writes it out. *)
Lemma cleanCache_spec (W : world) (st : agent) :
  ∃ st',
    __cleanCache W st = (Return tt, st') ∧
    history st' = history st ∧
    replicaCache st'
      = evict (utcnow W (history st) - timedelta_days (replicaCacheValidity st))
              (replicaCache st) ∧
    match pickle_dump W (history st) with
    | None => cacheFile st' = Pickled (replicaCache st')
    | Some residue =>
        cacheFile st' = residue ∧
        (Error, "Could not write replica cache file %s") ∈ log st'
    end.
Proof.
  unfold __cleanCache, try_except.
  unfold mbind, ST_bind, bind at 1. unfold get at 1. unfold bind at 1.
  set (timeLimit := utcnow W (history st) - timedelta_days (replicaCacheValidity st)).
  destruct (clean_loop timeLimit ((map_to_list (replicaCache st)).*1) st)
    as (st1 & -> & Hh1 & Hc1).
  { apply NoDup_fst_map_to_list. }
  { intros t. apply map_to_list_keys_lookup. }
  assert (replicaCache st1 = evict timeLimit (replicaCache st)) as Hevict.
  { apply map_eq. intros t. rewrite Hc1. case_bool_decide as Hin; [done|].
    unfold evict. rewrite lookup_omap.
    destruct (replicaCache st !! t) as [snapshots|] eqn:HT; [|done].
    exfalso. apply Hin. apply map_to_list_keys_lookup. by exists snapshots. }
  destruct (writeCache_spec W st1) as (st' & -> & Hh & Hc & Hfile).
  exists st'. split; [reflexivity|]. split; [congruence|]. split; [congruence|].
  rewrite <- Hh1. rewrite Hc. exact Hfile.
Qed.

Lemma stale_false (timeLimit updateTime : Z) (cachedReplicas : replicaMap) :
  stale timeLimit updateTime cachedReplicas = false
  ↔ timeLimit ≤ updateTime ∧ cachedReplicas ≠ ∅.
Proof.
  unfold stale. rewrite orb_false_iff, Z.ltb_ge, bool_decide_eq_false. done.
Qed.

Lemma fresh_snapshots_lookup (timeLimit : Z) (snapshots : gmap Z replicaMap)
    (updateTime : Z) (cachedReplicas : replicaMap) :
  fresh_snapshots timeLimit snapshots !! updateTime = Some cachedReplicas
  ↔ snapshots !! updateTime = Some cachedReplicas
    ∧ timeLimit ≤ updateTime ∧ cachedReplicas ≠ ∅.
Proof.
  unfold fresh_snapshots. rewrite map_lookup_filter_Some. simpl.
  by rewrite stale_false.
Qed.

Lemma evict_lookup (timeLimit : Z) (c : cache) (transID : Z)
    (kept : gmap Z replicaMap) :
  evict timeLimit c !! transID = Some kept
  ↔ ∃ snapshots, c !! transID = Some snapshots
                 ∧ kept = fresh_snapshots timeLimit snapshots ∧ kept ≠ ∅.
Proof.
  unfold evict. rewrite lookup_omap.
  destruct (c !! transID) as [snapshots|]; simpl.
  - case_bool_decide as Hempty; split.
    + discriminate.
    + intros (s & [= <-] & -> & Hne). contradiction.
    + intros [= <-]. by exists snapshots.
    + intros (s & [= <-] & -> & _). done.
  - split; [discriminate|]. intros (s & Hs & _). discriminate.
Qed.

(** X22: with the validity of two days set by the constructor, the eviction
    pass returns normally and leaves a cache in which no transformation has
    an empty collection of snapshots and every snapshot is non-empty and at
    most two days old; the snapshots that are neither stale nor empty all
    stay; the cache left is then written to the file, and when that write
    fails an error is logged and the pass still returns. *)
Theorem cleanCache_evicts (W : world) (st : agent) :
  replicaCacheValidity st = 2 →
  let timeLimit := utcnow W (history st) - 172800000000 in
  ∃ st',
    __cleanCache W st = (Return tt, st') ∧
    (∀ transID snapshots,
       replicaCache st' !! transID = Some snapshots →
       snapshots ≠ ∅ ∧
       ∀ updateTime cachedReplicas,
         snapshots !! updateTime = Some cachedReplicas →
         timeLimit ≤ updateTime ∧ cachedReplicas ≠ ∅) ∧
    (∀ transID snapshots updateTime cachedReplicas,
       replicaCache st !! transID = Some snapshots →
       snapshots !! updateTime = Some cachedReplicas →
       timeLimit ≤ updateTime → cachedReplicas ≠ ∅ →
       ∃ kept, replicaCache st' !! transID = Some kept
               ∧ kept !! updateTime = Some cachedReplicas) ∧
    match pickle_dump W (history st) with
    | None => cacheFile st' = Pickled (replicaCache st')
    | Some residue =>
        cacheFile st' = residue ∧
        (Error, "Could not write replica cache file %s") ∈ log st'
    end.
Proof.
  intros Hvalidity timeLimit.
  destruct (cleanCache_spec W st) as (st' & Hrun & _ & Hc & Hfile).
  rewrite Hvalidity in Hc. change (utcnow W (history st) - timedelta_days 2)
    with timeLimit in Hc.
  exists st'. split; [exact Hrun|]. split; [|split; [|exact Hfile]].
  - intros transID kept Hkept. rewrite Hc in Hkept.
    apply evict_lookup in Hkept as (snapshots & _ & -> & Hne).
    split; [exact Hne|]. intros updateTime cachedReplicas Hsnap.
    apply fresh_snapshots_lookup in Hsnap. tauto.
  - intros transID snapshots updateTime cachedReplicas HT Hsnap Htime Hne.
    assert (fresh_snapshots timeLimit snapshots !! updateTime = Some cachedReplicas)
      as Hfresh by (by apply fresh_snapshots_lookup).
    exists (fresh_snapshots timeLimit snapshots). split; [|exact Hfresh].
    rewrite Hc. apply evict_lookup. exists snapshots. split; [exact HT|].
    split; [reflexivity|]. intros Hempty. rewrite Hempty in Hfresh.
    by rewrite lookup_empty in Hfresh.
Qed.

Lemma cleanCache_evicts_witness :
  ∃ st',
    __cleanCache Sample.quiet Sample.cached = (Return tt, st') ∧
    (∀ transID snapshots,
       replicaCache st' !! transID = Some snapshots →
       snapshots ≠ ∅ ∧
       ∀ updateTime cachedReplicas,
         snapshots !! updateTime = Some cachedReplicas →
         1000000000000 - 172800000000 ≤ updateTime ∧ cachedReplicas ≠ ∅) ∧
    cacheFile st' = Pickled (replicaCache st').
Proof.
  destruct (cleanCache_evicts Sample.quiet Sample.cached eq_refl)
    as (st' & Hrun & Hclean & _ & Hfile).
  exists st'. split; [exact Hrun|]. split; [exact Hclean|exact Hfile].
Defined.

(** ** The scan of the cache *)

Lemma scan_hits_loop (cachedReplicas : replicaMap) (l : list string) :
  ∀ (dataReplicas : replicaMap) (st : agent),
    (∀ x, x ∈ l → is_Some (cachedReplicas !! x)) →
    ∃ dataReplicas',
      forM_ l (scan_hit cachedReplicas) (dataReplicas, st)
        = (Return tt, (dataReplicas', st)) ∧
      ∀ x, dataReplicas' !! x
           = if bool_decide (x ∈ l) then cachedReplicas !! x else dataReplicas !! x.
Proof.
  induction l as [|lfn l IH]; intros dataReplicas st Hl.
  - exists dataReplicas. rewrite forM__nil. split; [reflexivity|].
    intros x. rewrite bool_decide_eq_false_2; [done|]. intros Hin. inversion Hin.
  - destruct (Hl lfn) as [locations Hloc]; [left|].
    rewrite forM__cons. unfold scan_hit at 1, subscript, on_locals. run.
    rewrite Hloc. run.
    destruct (IH (<[lfn:=locations]> dataReplicas) st) as (dataReplicas' & -> & Hdr).
    { intros x Hx. apply Hl. by right. }
    exists dataReplicas'. split; [reflexivity|].
    intros x. rewrite Hdr. destruct (decide (x = lfn)) as [->|Hne].
    + rewrite (bool_decide_eq_true_2 (lfn ∈ lfn :: l)) by left.
      rewrite lookup_insert_eq. destruct (bool_decide (lfn ∈ l)); done.
    + rewrite lookup_insert_ne by done.
      assert (bool_decide (x ∈ lfn :: l) = bool_decide (x ∈ l)) as ->; [|done].
      apply bool_decide_ext. rewrite elem_of_cons.
      split; [intros [?|?]; [contradiction|done]|by right].
Qed.

Lemma pop_cached_spec (transID crs : Z) (lfn : string) (st : agent)
    (snapshots : gmap Z replicaMap) (cachedReplicas : replicaMap) :
  replicaCache st !! transID = Some snapshots →
  snapshots !! crs = Some cachedReplicas →
  is_Some (cachedReplicas !! lfn) →
  pop_cached transID crs lfn st
    = (Return tt,
       set_replicaCache
         (<[transID := <[crs := delete lfn cachedReplicas]> snapshots]> (replicaCache st))
         st).
Proof.
  intros HT Hcrs [locations Hloc]. unfold pop_cached, subscript. run.
  rewrite HT. run. rewrite Hcrs. run. rewrite Hloc. reflexivity.
Qed.

Lemma pops_loop (transID crs : Z) (dataReplicas : replicaMap) (l : list string) :
  ∀ (st : agent) (snapshots : gmap Z replicaMap) (cachedReplicas : replicaMap),
    replicaCache st !! transID = Some snapshots →
    snapshots !! crs = Some cachedReplicas →
    NoDup l → (∀ x, x ∈ l → is_Some (cachedReplicas !! x)) →
    ∃ st',
      forM_ l (λ lfn, on_agent (pop_cached transID crs lfn)) (dataReplicas, st)
        = (Return tt, (dataReplicas, st')) ∧
      history st' = history st ∧ replicaCacheValidity st' = replicaCacheValidity st ∧
      replicaCache st'
        = <[transID := <[crs := filter (λ kv, kv.1 ∉ l) cachedReplicas]> snapshots]>
            (replicaCache st).
Proof.
  induction l as [|lfn l IH]; intros st snapshots cachedReplicas HT Hcrs Hnd Hl.
  - exists st. rewrite forM__nil. split; [reflexivity|]. split; [reflexivity|].
    split; [reflexivity|].
    rewrite (map_filter_id _ cachedReplicas).
    + rewrite (insert_id snapshots) by done. by rewrite insert_id.
    + intros i x _ Hin. inversion Hin.
  - apply NoDup_cons in Hnd as [Hlfn Hnd].
    rewrite forM__cons. unfold on_agent at 1. cbn [fst snd].
    rewrite (pop_cached_spec transID crs lfn st snapshots cachedReplicas HT Hcrs)
      by (apply Hl; left).
    set (st1 := set_replicaCache _ st).
    destruct (IH st1 (<[crs := delete lfn cachedReplicas]> snapshots)
                (delete lfn cachedReplicas)) as (st' & -> & Hh & Hlog & Hc).
    + unfold st1. cbn [replicaCache set_replicaCache]. apply lookup_insert_eq.
    + apply lookup_insert_eq.
    + exact Hnd.
    + intros x Hx. rewrite lookup_delete_ne by (intros ->; contradiction).
      apply Hl. by right.
    + exists st'. split; [reflexivity|]. split; [exact Hh|]. split; [exact Hlog|].
      rewrite Hc. unfold st1. cbn [replicaCache set_replicaCache].
      rewrite !insert_insert_eq. do 2 f_equal.
      apply map_eq. intros i. apply option_eq. intros x.
      rewrite !map_lookup_filter_Some, lookup_delete_Some. simpl.
      rewrite not_elem_of_cons. split.
      * intros [[Hne Hi] Hn]. done.
      * intros [Hi [Hne Hn]]. done.
Qed.

Lemma scan_snapshot_spec (transID : Z) (lfns : list string) (crs : Z)
    (dataReplicas : replicaMap) (st : agent)
    (snapshots : gmap Z replicaMap) (cachedReplicas : replicaMap) :
  replicaCache st !! transID = Some snapshots →
  snapshots !! crs = Some cachedReplicas →
  ∃ dataReplicas' st',
    scan_snapshot transID lfns crs (dataReplicas, st)
      = (Return tt, (dataReplicas', st')) ∧
    history st' = history st ∧ replicaCacheValidity st' = replicaCacheValidity st ∧
    replicaCache st'
      = <[transID := <[crs := compact lfns cachedReplicas]> snapshots]> (replicaCache st) ∧
    ∀ x, dataReplicas' !! x
         = if bool_decide (x ∈ lfns ∧ is_Some (cachedReplicas !! x))
           then cachedReplicas !! x else dataReplicas !! x.
Proof.
  intros HT Hcrs. unfold scan_snapshot.
  unfold mbind, ST_bind, bind at 1. unfold on_agent at 1, get at 1. cbn [fst snd].
  rewrite HT. cbn [from_option id]. unfold bind at 1, subscript at 1. rewrite Hcrs.
  unfold ret at 1. unfold bind at 1.
  destruct (scan_hits_loop cachedReplicas
              (filter (λ lfn, is_Some (cachedReplicas !! lfn)) lfns) dataReplicas st)
    as (dataReplicas' & -> & Hdr).
  { intros x Hx. apply list_elem_of_filter in Hx. tauto. }
  destruct (pops_loop transID crs dataReplicas'
              (filter (λ lfn, lfn ∉ lfns) (map_to_list cachedReplicas).*1)
              st snapshots cachedReplicas HT Hcrs)
    as (st' & -> & Hh & Hlog & Hc).
  { apply NoDup_filter, NoDup_fst_map_to_list. }
  { intros x Hx. apply list_elem_of_filter in Hx as [_ Hx].
    by apply map_to_list_keys_lookup. }
  exists dataReplicas', st'. split; [reflexivity|]. split; [exact Hh|].
  split; [exact Hlog|]. split.
  - rewrite Hc. do 2 f_equal. unfold compact. apply map_filter_ext.
    intros i x Hi. simpl. rewrite list_elem_of_filter, map_to_list_keys_lookup.
    split.
    + intros Hn. destruct (decide (i ∈ lfns)) as [|Hout]; [done|].
      exfalso. apply Hn. split; [exact Hout|]. by exists x.
    + intros Hin [Hout _]. contradiction.
  - intros x. rewrite Hdr. apply (f_equal (λ b : bool, if b then _ else _)).
    apply bool_decide_ext. rewrite list_elem_of_filter. tauto.
Qed.

Lemma scan_loop (transID : Z) (lfns : list string) (ks : list Z) :
  ∀ (dataReplicas : replicaMap) (st : agent) (snapshots : gmap Z replicaMap),
    replicaCache st !! transID = Some snapshots →
    NoDup ks → (∀ k, k ∈ ks → is_Some (snapshots !! k)) →
    ∃ dataReplicas' st' snapshots',
      forM_ ks (scan_snapshot transID lfns) (dataReplicas, st)
        = (Return tt, (dataReplicas', st')) ∧
      history st' = history st ∧ replicaCacheValidity st' = replicaCacheValidity st ∧
      replicaCache st' = <[transID := snapshots']> (replicaCache st) ∧
      (∀ k, snapshots' !! k
            = if bool_decide (k ∈ ks) then compact lfns <$> snapshots !! k
              else snapshots !! k) ∧
      (∀ x v, dataReplicas' !! x = Some v →
              dataReplicas !! x = Some v
              ∨ (x ∈ lfns ∧ ∃ k cr, k ∈ ks ∧ snapshots !! k = Some cr ∧ cr !! x = Some v)) ∧
      (∀ x, is_Some (dataReplicas !! x)
            ∨ (x ∈ lfns ∧ ∃ k cr, k ∈ ks ∧ snapshots !! k = Some cr ∧ is_Some (cr !! x)) →
            is_Some (dataReplicas' !! x)).
Proof.
  induction ks as [|k ks IH]; intros dataReplicas st snapshots HT Hnd Hks.
  - exists dataReplicas, st, snapshots. rewrite forM__nil.
    split; [reflexivity|]. split; [reflexivity|]. split; [reflexivity|].
    split; [by rewrite insert_id|]. split; [|split].
    + intros k. rewrite bool_decide_eq_false_2; [done|]. intros Hin. inversion Hin.
    + intros x v Hx. by left.
    + intros x [Hx|(_ & k & cr & Hin & _)]; [done|inversion Hin].
  - apply NoDup_cons in Hnd as [Hk Hnd].
    destruct (Hks k) as [cr Hcr]; [left|].
    destruct (scan_snapshot_spec transID lfns k dataReplicas st snapshots cr HT Hcr)
      as (dataReplicas1 & st1 & Hrun & Hh1 & Hlog1 & Hc1 & Hdr1).
    rewrite forM__cons, Hrun.
    assert (Hother : ∀ j, j ≠ k →
              (<[k := compact lfns cr]> snapshots : gmap Z replicaMap) !! j
              = snapshots !! j).
    { intros j Hne. by rewrite lookup_insert_ne. }
    destruct (IH dataReplicas1 st1 (<[k := compact lfns cr]> snapshots))
      as (dataReplicas' & st' & snapshots' & Hloop & Hh & Hlog & Hc & Hsn & Hval & Hdom).
    { rewrite Hc1. apply lookup_insert_eq. }
    { exact Hnd. }
    { intros j Hj. rewrite Hother; [apply Hks; by right|].
      intros ->. contradiction. }
    exists dataReplicas', st', snapshots'. split; [exact Hloop|].
    split; [congruence|]. split; [congruence|].
    split; [by rewrite Hc, Hc1, insert_insert_eq|]. split; [|split].
    + intros j. rewrite Hsn. destruct (decide (j = k)) as [->|Hne].
      * rewrite (bool_decide_eq_false_2 _ Hk), bool_decide_eq_true_2 by left.
        by rewrite lookup_insert_eq, Hcr.
      * rewrite Hother by done.
        assert (bool_decide (j ∈ k :: ks) = bool_decide (j ∈ ks)) as ->; [|done].
        apply bool_decide_ext. rewrite elem_of_cons.
        split; [intros [?|?]; [contradiction|done]|by right].
    + intros x v Hx. destruct (Hval x v Hx) as [Hx1|(Hin & j & cr' & Hj & Hsnap & Hv)].
      * rewrite Hdr1 in Hx1. case_bool_decide as Hhit; [|by left].
        right. split; [tauto|]. exists k, cr. split; [left|]. done.
      * right. split; [exact Hin|]. exists j, cr'. split; [by right|].
        split; [|exact Hv]. rewrite <- Hsnap. symmetry. apply Hother.
        intros ->. contradiction.
    + intros x Hx. apply Hdom.
      destruct Hx as [Hx|(Hin & j & cr' & Hj & Hsnap & Hv)].
      * left. rewrite Hdr1. case_bool_decide as Hhit; [tauto|exact Hx].
      * apply elem_of_cons in Hj as [->|Hj].
        -- left. rewrite Hdr1. assert (cr' = cr) as -> by congruence.
           by rewrite bool_decide_eq_true_2.
        -- right. split; [exact Hin|]. exists j, cr'. split; [exact Hj|].
           split; [|exact Hv]. rewrite Hother; [exact Hsnap|].
           intros ->. contradiction.
Qed.

(** The scan never raises; it leaves the cache compacted and collects in
    [dataReplicas] exactly the requested files that some snapshot holds. *)
Lemma scan_cache_spec (transID : Z) (lfns : list string) (st : agent) :
  ∃ dataReplicas st',
    scan_cache transID lfns (∅, st) = (Return tt, (dataReplicas, st')) ∧
    history st' = history st ∧ replicaCacheValidity st' = replicaCacheValidity st ∧
    replicaCache st' = compacted transID lfns (replicaCache st) ∧
    (∀ x v, dataReplicas !! x = Some v →
            x ∈ lfns ∧ cached_at (replicaCache st) transID x v) ∧
    (∀ x v, x ∈ lfns → cached_at (replicaCache st) transID x v →
            is_Some (dataReplicas !! x)).
Proof.
  unfold scan_cache. unfold mbind, ST_bind, bind at 1.
  unfold on_agent at 1, get at 1. cbn [fst snd].
  destruct (replicaCache st !! transID) as [snapshots|] eqn:HT; cbn [from_option id].
  - destruct (scan_loop transID lfns ((map_to_list snapshots).*1) ∅ st snapshots HT)
      as (dataReplicas & st' & snapshots' & Hloop & Hh & Hlog & Hc & Hsn & Hval & Hdom).
    { apply NoDup_fst_map_to_list. }
    { intros k. apply map_to_list_keys_lookup. }
    exists dataReplicas, st'. split; [exact Hloop|]. split; [exact Hh|].
    split; [exact Hlog|]. split; [|split].
    + rewrite Hc. unfold compacted. apply map_eq. intros t.
      rewrite lookup_alter. destruct (decide (transID = t)) as [<-|Hne].
      * rewrite lookup_insert_eq, HT. simpl. f_equal.
        apply map_eq. intros k. rewrite Hsn, lookup_fmap.
        case_bool_decide as Hin; [done|].
        destruct (snapshots !! k) as [cr|] eqn:Hk; [|done].
        exfalso. apply Hin. apply map_to_list_keys_lookup. by exists cr.
      * by rewrite lookup_insert_ne.
    + intros x v Hx. destruct (Hval x v Hx) as [Hx0|(Hin & k & cr & _ & Hk & Hv)].
      * by rewrite lookup_empty in Hx0.
      * split; [exact Hin|]. by exists snapshots, k, cr.
    + intros x v Hin (snapshots0 & k & cr & HT0 & Hk & Hv).
      assert (snapshots0 = snapshots) as -> by congruence.
      apply Hdom. right. split; [exact Hin|]. exists k, cr.
      split; [|split; [exact Hk|by exists v]].
      apply map_to_list_keys_lookup. by exists cr.
  - rewrite map_to_list_empty. cbn [fmap list_fmap]. rewrite forM__nil.
    exists ∅, st. split; [reflexivity|]. split; [reflexivity|].
    split; [reflexivity|]. split; [|split].
    + unfold compacted. apply map_eq. intros t. rewrite lookup_alter.
      destruct (decide (transID = t)) as [<-|Hne]; [by rewrite HT|done].
    + intros x v Hx. by rewrite lookup_empty in Hx.
    + intros x v _ (snapshots0 & k & cr & HT0 & _). congruence.
Qed.

(** ** Resolution through the cache *)

(** Binding the arguments of [self.__getDataReplicasRM( self, transID,
    newLFNs, active = active )] fails: with the bound [self] there are four
    positional arguments, the fourth lands on [active]. *)
Lemma call__getDataReplicasRM_raises (W : world) (transID : Z) (newLFNs : list string)
    (active : bool) (st : agent) :
  call__getDataReplicasRM W [ASelf; ATransID transID; ALfns newLFNs]
                          [("active", ABool active)] st
  = (Raise (TypeError "got multiple values for keyword argument"), st).
Proof. reflexivity. Qed.

Lemma getDataReplicas_unfold (W : world) (transID : Z) (lfns : list string)
    (active : bool) (st : agent) :
  __getDataReplicas W transID lfns active st
  = let st0 := set_log (log st ++ [(Verbose, "Getting replicas for %d files")]) st in
    let '(_, (dataReplicas, st')) := scan_cache transID lfns (∅, st0) in
    let st1 :=
      if bool_decide (dataReplicas = ∅) then st'
      else set_log (log st' ++ [(Verbose, "ReplicaCache hit for %d out of %d LFNs")]) st' in
    match filter (λ lfn, dataReplicas !! lfn = None) lfns with
    | [] =>
        match __cleanCache W st1 with
        | (Return _, st2) => (Return (S_OK dataReplicas), st2)
        | (Raise e, st2) => (Raise e, st2)
        end
    | _ =>
        (Raise (TypeError "got multiple values for keyword argument"),
         set_log (log st1 ++ [(Verbose, "Getting replicas for %d files from catalog")]) st1)
    end.
Proof.
  unfold __getDataReplicas, try_pass_locals. run.
  destruct (scan_cache transID lfns _) as [o [dataReplicas st']]. run.
  destruct (bool_decide (dataReplicas = ∅)); run;
    destruct (filter (λ lfn, dataReplicas !! lfn = None) lfns); reflexivity.
Qed.

(** [__getDataReplicas] in two cases: when the scan answers every file, the
    eviction pass runs and the hits are returned; otherwise the call to the
    catalog helper raises. In both the history is unchanged and the cache
    has been compacted. *)
Lemma getDataReplicas_spec (W : world) (transID : Z) (lfns : list string)
    (active : bool) (st : agent) :
  ∃ dataReplicas st1,
    history st1 = history st ∧
    replicaCache st1 = compacted transID lfns (replicaCache st) ∧
    (∀ x v, dataReplicas !! x = Some v →
            x ∈ lfns ∧ cached_at (replicaCache st) transID x v) ∧
    (∀ x v, x ∈ lfns → cached_at (replicaCache st) transID x v →
            is_Some (dataReplicas !! x)) ∧
    ((filter (λ lfn, dataReplicas !! lfn = None) lfns = [] ∧
      ∃ st', __cleanCache W st1 = (Return tt, st') ∧
             __getDataReplicas W transID lfns active st
               = (Return (S_OK dataReplicas), st'))
     ∨
     (filter (λ lfn, dataReplicas !! lfn = None) lfns ≠ [] ∧
      __getDataReplicas W transID lfns active st
        = (Raise (TypeError "got multiple values for keyword argument"),
           set_log (log st1 ++ [(Verbose, "Getting replicas for %d files from catalog")])
                   st1))).
Proof.
  rewrite getDataReplicas_unfold. cbv zeta.
  set (st0 := set_log _ st).
  destruct (scan_cache_spec transID lfns st0)
    as (dataReplicas & st' & -> & Hh & Hlog & Hc & Hval & Hdom).
  set (st1 := if bool_decide (dataReplicas = ∅) then st'
              else set_log (log st' ++ [(Verbose, "ReplicaCache hit for %d out of %d LFNs")])
                           st').
  assert (history st1 = history st ∧
          replicaCache st1 = compacted transID lfns (replicaCache st)) as [Hh1 Hc1].
  { unfold st1. destruct (bool_decide (dataReplicas = ∅)); by rewrite ?Hh, ?Hc. }
  exists dataReplicas, st1. split; [exact Hh1|]. split; [exact Hc1|].
  split; [exact Hval|]. split; [exact Hdom|].
  destruct (filter (λ lfn, dataReplicas !! lfn = None) lfns) as [|lfn newLFNs] eqn:Hnew.
  - left. split; [reflexivity|].
    destruct (cleanCache_spec W st1) as (st2 & Hclean & _).
    exists st2. split; [exact Hclean|]. by rewrite Hclean.
  - right. split; [discriminate|]. reflexivity.
Qed.

(** A resolution call that returns has run the eviction pass on the
    compacted cache. *)
Lemma getDataReplicas_returns_evicted (W : world) (transID : Z) (lfns : list string)
    (active : bool) (st st' : agent) (res : result replicaMap) :
  __getDataReplicas W transID lfns active st = (Return res, st') →
  replicaCache st'
    = evict (utcnow W (history st) - timedelta_days (replicaCacheValidity st))
            (compacted transID lfns (replicaCache st)).
Proof.
  intros Hrun. rewrite getDataReplicas_unfold in Hrun. cbv zeta in Hrun.
  set (st0 := set_log _ st) in Hrun.
  destruct (scan_cache_spec transID lfns st0)
    as (dataReplicas & st1 & Hscan & Hh & Hv & Hc & _).
  rewrite Hscan in Hrun.
  set (st2 := if bool_decide (dataReplicas = ∅) then st1 else _) in Hrun.
  assert (history st2 = history st ∧
          replicaCache st2 = compacted transID lfns (replicaCache st) ∧
          replicaCacheValidity st2 = replicaCacheValidity st) as (Hh2 & Hc2 & Hv2).
  { unfold st2. destruct (bool_decide (dataReplicas = ∅)); by rewrite ?Hh, ?Hc, ?Hv. }
  destruct (filter (λ lfn, dataReplicas !! lfn = None) lfns); [|discriminate].
  destruct (cleanCache_spec W st2) as (st3 & Hclean & _ & Hc3 & _).
  rewrite Hclean in Hrun. injection Hrun as _ <-. by rewrite Hc3, Hh2, Hc2, Hv2.
Qed.

Lemma filter_nil_iff {A} (P : A → Prop) `{!∀ x, Decision (P x)} (l : list A) :
  filter P l = [] ↔ ∀ x, x ∈ l → ¬ P x.
Proof.
  split.
  - intros Hnil x Hx HP. by eapply filter_nil_not_elem_of.
  - intros Hall. induction l as [|y l IH]; [done|].
    rewrite filter_cons. destruct (decide (P y)) as [HP|_].
    + exfalso. apply (Hall y); [left|done].
    + apply IH. intros x Hx. apply Hall. by right.
Qed.

(** When every requested file is in some snapshot, the call returns the
    hits for all of them and calls neither the catalog nor the registry. *)
Lemma getDataReplicas_all_cached (W : world) (transID : Z) (lfns : list string)
    (active : bool) (st : agent) :
  (∀ lfn, lfn ∈ lfns → ∃ v, cached_at (replicaCache st) transID lfn v) →
  ∃ dataReplicas st',
    __getDataReplicas W transID lfns active st = (Return (S_OK dataReplicas), st') ∧
    history st' = history st ∧
    (∀ lfn, lfn ∈ lfns → is_Some (dataReplicas !! lfn)) ∧
    (∀ lfn v, dataReplicas !! lfn = Some v →
              lfn ∈ lfns ∧ cached_at (replicaCache st) transID lfn v).
Proof.
  intros Hall.
  destruct (getDataReplicas_spec W transID lfns active st)
    as (dataReplicas & st1 & Hh1 & _ & Hval & Hdom & Hcase).
  assert (Hhit : ∀ lfn, lfn ∈ lfns → is_Some (dataReplicas !! lfn)).
  { intros lfn Hin. destruct (Hall lfn Hin) as [v Hv]. by eapply Hdom. }
  destruct Hcase as [(_ & st' & Hclean & Hrun)|[Hmiss _]].
  - exists dataReplicas, st'. split; [exact Hrun|]. split; [|done].
    destruct (cleanCache_spec W st1) as (st2 & Hclean2 & Hh2 & _).
    assert (st2 = st') as -> by congruence. congruence.
  - exfalso. apply Hmiss. apply filter_nil_iff. intros x Hx Hnone.
    destruct (Hhit x Hx) as [v Hv]. congruence.
Qed.

(** When a requested file is in no snapshot, the call raises and nothing
    was asked of the catalog. *)
Lemma getDataReplicas_miss_raises (W : world) (transID : Z) (lfns : list string)
    (active : bool) (st : agent) (lfn : string) :
  lfn ∈ lfns → (∀ v, ¬ cached_at (replicaCache st) transID lfn v) →
  ∃ st',
    __getDataReplicas W transID lfns active st
      = (Raise (TypeError "got multiple values for keyword argument"), st') ∧
    history st' = history st.
Proof.
  intros Hin Hmiss.
  destruct (getDataReplicas_spec W transID lfns active st)
    as (dataReplicas & st1 & Hh1 & _ & Hval & _ & Hcase).
  destruct Hcase as [(Hnil & _)|[_ Hrun]].
  - exfalso. rewrite filter_nil_iff in Hnil.
    destruct (dataReplicas !! lfn) as [v|] eqn:Hv.
    + destruct (Hval lfn v Hv) as [_ Hc]. by apply (Hmiss v).
    + by apply (Hnil lfn Hin).
  - eexists. split; [exact Hrun|]. exact Hh1.
Qed.

Lemma compacted_keys (transID : Z) (lfns : list string) (c : cache)
    (snapshots : gmap Z replicaMap) (crs : Z) (cachedReplicas : replicaMap)
    (lfn : string) :
  compacted transID lfns c !! transID = Some snapshots →
  snapshots !! crs = Some cachedReplicas →
  is_Some (cachedReplicas !! lfn) → lfn ∈ lfns.
Proof.
  unfold compacted. rewrite lookup_alter_eq. intros HT Hcrs [v Hv].
  destruct (c !! transID) as [snapshots0|]; [|discriminate].
  injection HT as <-. rewrite lookup_fmap in Hcrs.
  destruct (snapshots0 !! crs) as [cr0|]; [|discriminate].
  injection Hcrs as <-. unfold compact in Hv.
  apply map_lookup_filter_Some in Hv as [_ Hin]. exact Hin.
Qed.

(** C7: after a resolution request over [lfns] for [transID], whether it
    returned or raised, every entry of every snapshot the cache holds for
    [transID] is for a file of [lfns]. *)
Theorem getDataReplicas_compacts (W : world) (transID : Z) (lfns : list string)
    (active : bool) (st : agent)
    (snapshots : gmap Z replicaMap) (crs : Z) (cachedReplicas : replicaMap)
    (lfn : string) :
  replicaCache (__getDataReplicas W transID lfns active st).2 !! transID
    = Some snapshots →
  snapshots !! crs = Some cachedReplicas →
  is_Some (cachedReplicas !! lfn) →
  lfn ∈ lfns.
Proof.
  destruct (getDataReplicas_spec W transID lfns active st)
    as (dataReplicas & st1 & _ & Hc1 & _ & _ & Hcase).
  destruct Hcase as [(_ & st' & Hclean & ->)|[_ ->]]; cbn [snd].
  - destruct (cleanCache_spec W st1) as (st2 & Hclean2 & _ & Hc2 & _).
    assert (st2 = st') as -> by congruence.
    rewrite Hc2. intros HT Hcrs Hlfn.
    apply evict_lookup in HT as (snapshots1 & HT1 & -> & _).
    apply fresh_snapshots_lookup in Hcrs as [Hcrs _].
    rewrite Hc1 in HT1. by eapply compacted_keys.
  - cbn [replicaCache set_log]. rewrite Hc1. apply compacted_keys.
Qed.

Lemma getDataReplicas_compacts_witness :
  replicaCache (__getDataReplicas Sample.quiet 7 ["a"; "b"] true Sample.cached).2 !! 7
    = Some {[ 999999999999 := {[ "b" := {[ "SE2" := "pfn-b" ]} ]} ]} ∧
  "b" ∈ ["a"; "b"].
Proof.
  assert (replicaCache
            (__getDataReplicas Sample.quiet 7 ["a"; "b"] true Sample.cached).2 !! 7
          = Some {[ 999999999999 := {[ "b" := {[ "SE2" := "pfn-b" ]} ]} ]}) as Hcache
    by (vm_compute; reflexivity).
  split; [exact Hcache|].
  apply (getDataReplicas_compacts Sample.quiet 7 ["a"; "b"] true Sample.cached
           {[ 999999999999 := {[ "b" := {[ "SE2" := "pfn-b" ]} ]} ]}
           999999999999 {[ "b" := {[ "SE2" := "pfn-b" ]} ]} "b").
  - exact Hcache.
  - reflexivity.
  - exists {[ "SE2" := "pfn-b" ]}. reflexivity.
Defined.

(** A request with a miss leaves the snapshots as the scan compacted them:
    the eviction pass, the last statement but one of [__getDataReplicas], is
    not reached. *)
Lemma getDataReplicas_miss_keeps_snapshots (W : world) (transID : Z)
    (lfns : list string) (active : bool) (st : agent) (lfn : string) :
  lfn ∈ lfns → (∀ v, ¬ cached_at (replicaCache st) transID lfn v) →
  (__getDataReplicas W transID lfns active st).1
    = Raise (TypeError "got multiple values for keyword argument") ∧
  replicaCache (__getDataReplicas W transID lfns active st).2
    = compacted transID lfns (replicaCache st).
Proof.
  intros Hin Hmiss.
  destruct (getDataReplicas_spec W transID lfns active st)
    as (dataReplicas & st1 & _ & Hc1 & Hval & _ & Hcase).
  destruct Hcase as [(Hnil & _)|[_ ->]].
  - exfalso. rewrite filter_nil_iff in Hnil.
    destruct (dataReplicas !! lfn) as [v|] eqn:Hv.
    + destruct (Hval lfn v Hv) as [_ Hc]. by apply (Hmiss v).
    + by apply (Hnil lfn Hin).
  - split; [reflexivity|]. exact Hc1.
Qed.

(** C8, at a resolution call with a cache miss: the request for ["a"] and
    ["c"] of transformation 7 raises [TypeError] before the eviction pass.
    The cache is left with the snapshot taken at time 10, older than the
    validity of two days, and with a snapshot that the scan has emptied;
    nothing is written to the cache file, although the write would succeed.
    The eviction pass run on that store removes both snapshots and the
    entry of the transformation, and writes the cache. *)
Theorem getDataReplicas_miss_skips_eviction :
  let st' := (__getDataReplicas Sample.quiet 7 ["a"; "c"] true Sample.cached).2 in
  let timeLimit := utcnow Sample.quiet (history st')
                   - timedelta_days (replicaCacheValidity st') in
  (__getDataReplicas Sample.quiet 7 ["a"; "c"] true Sample.cached).1
    = Raise (TypeError "got multiple values for keyword argument") ∧
  replicaCache st' !! 7
    = Some {[ 10 := {[ "a" := {[ "SE1" := "pfn-a" ]} ]}; 999999999999 := ∅ ]} ∧
  replicaCacheValidity st' = 2 ∧ 10 < timeLimit ∧
  cacheFile st' = Unreadable ∧ pickle_dump Sample.quiet (history st') = None ∧
  replicaCache (__cleanCache Sample.quiet st').2 = ∅ ∧
  cacheFile (__cleanCache Sample.quiet st').2 = Pickled ∅.
Proof.
  intros st' timeLimit. unfold timeLimit, st'.
  split; [vm_compute; reflexivity|]. split; [vm_compute; reflexivity|].
  split; [reflexivity|]. split; [vm_compute; reflexivity|].
  split; [vm_compute; reflexivity|]. split; [reflexivity|].
  split; vm_compute; reflexivity.
Qed.

(** C5, at a request that the cache answers only in part: ["a"] is in a
    snapshot of transformation 7 and ["c"] in none; the call raises
    [TypeError] instead of returning a map with ["a"], and the catalog was
    not called. *)
Theorem getDataReplicas_partial_hit_raises :
  cached_at (replicaCache Sample.cached) 7 "a" {[ "SE1" := "pfn-a" ]} ∧
  (__getDataReplicas Sample.quiet 7 ["a"; "c"] true Sample.cached).1
    = Raise (TypeError "got multiple values for keyword argument") ∧
  history (__getDataReplicas Sample.quiet 7 ["a"; "c"] true Sample.cached).2 = [].
Proof.
  split.
  - exists {[ 10 := {[ "a" := {[ "SE1" := "pfn-a" ]} ]};
              999999999999 := {[ "b" := {[ "SE2" := "pfn-b" ]} ]} ]},
           10, {[ "a" := {[ "SE1" := "pfn-a" ]} ]}.
    split; [reflexivity|]. split; reflexivity.
  - split; vm_compute; reflexivity.
Qed.

(** C6, at a request with one cache hit and one file the catalog cannot
    resolve: the catalog helper, called as defined, reports the soft error
    ["No replicas obtained"] for ["c"]; [__getDataReplicas] never gets that
    far, it raises [TypeError] instead of returning [S_OK] with the hit
    for ["b"]. *)
Theorem getDataReplicas_empty_catalog_raises :
  cached_at (replicaCache Sample.cached) 7 "b" {[ "SE2" := "pfn-b" ]} ∧
  (__getDataReplicasRM Sample.quiet 7 ["c"] false Sample.cached).1
    = Return (S_ERROR "No replicas obtained") ∧
  (__getDataReplicas Sample.quiet 7 ["b"; "c"] false Sample.cached).1
    = Raise (TypeError "got multiple values for keyword argument").
Proof.
  split.
  - exists {[ 10 := {[ "a" := {[ "SE1" := "pfn-a" ]} ]};
              999999999999 := {[ "b" := {[ "SE2" := "pfn-b" ]} ]} ]},
           999999999999, {[ "b" := {[ "SE2" := "pfn-b" ]} ]}.
    split; [reflexivity|]. split; reflexivity.
  - split; vm_compute; reflexivity.
Qed.

(** ** The no-op cycle *)

(** With as many unused files as recorded and a status other than
    ['Flush'], [_getTransformationFiles] makes its one call and returns
    [S_OK()]; the rest of [processTransformation] then iterates over the
    [None] it carries and raises. *)
Lemma getTransformationFiles_unchanged (W : world) (d : transDict) (st : agent)
    (transFiles : list transFile) :
  transfClient_getTransformationFiles W (history st) (TransformationID d) "Unused"
    = S_OK transFiles →
  transFiles ≠ [] →
  Z.of_nat (length transFiles) = default 0 (unusedFiles st !! TransformationID d) →
  Status d ≠ "Flush" →
  ∃ st',
    _getTransformationFiles W d st = (Return (S_OK None), st') ∧
    history st'
      = history st ++ [Event (Remote.getTransformationFiles (TransformationID d) "Unused")
                             true] ∧
    processTransformation_rest W d (S_OK None) st'
      = (Raise (TypeError "'NoneType' object is not iterable"), st').
Proof.
  intros Hans Hne Hlen Hstatus. unfold _getTransformationFiles.
  unfold mbind, ST_bind, bind at 1.
  rewrite remote_bound by exact transfClient_bound. rewrite Hans.
  destruct transFiles as [|f fs]; [contradiction|]. run.
  cbn [unusedFiles set_history]. rewrite <- Hlen, Z.eqb_refl.
  destruct (String.eqb_spec (Status d) "Flush") as [?|_]; [contradiction|].
  cbn [negb andb]. eexists. split; [reflexivity|]. split; reflexivity.
Qed.

(** C4, at a transformation whose two unused files are the two recorded
    last time and whose status is ['Active']: the enumeration helper alone
    would return [S_OK()] after its single call, but [processTransformation]
    raises [TypeError], both as written and when the helper is given its
    argument. *)
Theorem processTransformation_noop_cycle_raises :
  unusedFiles Sample.seen_two !! 101 = Some 2 ∧
  (_getTransformationFiles Sample.two_unused Sample.t101 Sample.seen_two).1
    = Return (S_OK None) ∧
  (processTransformation Sample.two_unused Sample.t101 Sample.seen_two).1
    = Raise (TypeError "too few arguments given") ∧
  ((_getTransformationFiles Sample.two_unused Sample.t101
      ≫= processTransformation_rest Sample.two_unused Sample.t101) Sample.seen_two).1
    = Raise (TypeError "'NoneType' object is not iterable").
Proof. repeat split; vm_compute; reflexivity. Qed.

(** * Further properties *)

(** ** Sampling, for a maximum of at least one *)

(** X1: for [maxFiles >= 1] the sample is always a run of consecutive files
    of the list, in order, that starts within the first
    [max 0 (len - maxFiles)] positions and has [min len (maxFiles - 1)]
    files: never more than [maxFiles - 1]. *)
Theorem applyReduction_run {A} (maxFiles : Z) (u : draw) (lfns : list A) :
  unit_draw u → 1 ≤ maxFiles →
  ∃ firstFile,
    0 ≤ firstFile ≤ Z.max 0 (Z.of_nat (length lfns) - maxFiles) ∧
    __applyReduction maxFiles u lfns
      = take (Z.to_nat (maxFiles - 1)) (drop (Z.to_nat firstFile) lfns) ∧
    Z.of_nat (length (__applyReduction maxFiles u lfns))
      = Z.min (Z.of_nat (length lfns)) (maxFiles - 1).
Proof.
  intros Hu HM.
  destruct (Z.lt_trichotomy (Z.of_nat (length lfns)) maxFiles) as [Hlt|[Heq|Hgt]].
  - exists 0. rewrite applyReduction_below by exact Hlt.
    split; [lia|]. split; [|lia].
    simpl. rewrite drop_0. symmetry. apply take_ge. lia.
  - exists 0. destruct (applyReduction_at_max maxFiles u lfns Heq HM) as [Hr Hl].
    split; [lia|]. rewrite Hl. split; [|lia].
    rewrite Hr. simpl. rewrite drop_0. f_equal. lia.
  - destruct (applyReduction_window maxFiles u lfns Hu HM Hgt) as (f & Hf & Hr & Hl).
    exists f. split; [lia|]. split; [exact Hr|]. lia.
Qed.

Lemma applyReduction_run_witness :
  ∃ firstFile,
    0 ≤ firstFile ≤ 2 ∧
    __applyReduction 3 (Draw 1 2) ["f1"; "f2"; "f3"; "f4"; "f5"]
      = take 2 (drop (Z.to_nat firstFile) ["f1"; "f2"; "f3"; "f4"; "f5"]) ∧
    Z.of_nat (length (__applyReduction 3 (Draw 1 2) ["f1"; "f2"; "f3"; "f4"; "f5"])) = 2.
Proof.
  apply (applyReduction_run 3 (Draw 1 2) ["f1"; "f2"; "f3"; "f4"; "f5"]).
  - unfold unit_draw. simpl. lia.
  - lia.
Defined.

(** X2: a list with fewer files than the maximum goes through unchanged,
    whatever the draw. *)
Theorem applyReduction_short_list_unchanged {A} (maxFiles : Z) (u : draw)
    (lfns : list A) :
  Z.of_nat (length lfns) < maxFiles → __applyReduction maxFiles u lfns = lfns.
Proof. apply applyReduction_below. Qed.

Lemma applyReduction_short_list_unchanged_witness :
  __applyReduction 5000 (Draw 1 3) ["f1"; "f2"] = ["f1"; "f2"].
Proof.
  apply (applyReduction_short_list_unchanged 5000 (Draw 1 3) ["f1"; "f2"]).
  simpl. lia.
Defined.

(** ** Enumeration of the unused files *)

(** X3: when the registry fails to list the files, the helper hands the
    error back with its message, after that single call and an error line
    in the log; the recorded counts are untouched. *)
Theorem getTransformationFiles_error (W : world) (d : transDict) (st : agent)
    (msg : string) :
  transfClient_getTransformationFiles W (history st) (TransformationID d) "Unused"
    = S_ERROR msg →
  ∃ st',
    _getTransformationFiles W d st = (Return (S_ERROR msg), st') ∧
    history st'
      = history st
        ++ [Event (Remote.getTransformationFiles (TransformationID d) "Unused") false] ∧
    log st' = log st ++ [(Error, "Failed to obtain input data: %s.")] ∧
    unusedFiles st' = unusedFiles st.
Proof.
  intros Hans. unfold _getTransformationFiles.
  unfold mbind, ST_bind, bind at 1.
  rewrite remote_bound by exact transfClient_bound. rewrite Hans. run.
  eexists. split; [reflexivity|]. split; [reflexivity|]. split; reflexivity.
Qed.

(** X4: when no file is unused the helper returns [S_OK()] without a file
    list.  For a status other than ['Flush'] the listing is its only call;
    for ['Flush'] it asks once for the status ['Active'], and a failure of
    that request is logged as an error without changing the result. *)
Theorem getTransformationFiles_none_unused (W : world) (d : transDict) (st : agent) :
  transfClient_getTransformationFiles W (history st) (TransformationID d) "Unused"
    = S_OK [] →
  let listing := Event (Remote.getTransformationFiles (TransformationID d) "Unused") true in
  let activate := Remote.setTransformationParameter (TransformationID d) "Status" "Active" in
  let answer :=
    transfClient_setTransformationParameter W (history st ++ [listing])
      (TransformationID d) "Status" "Active" in
  ∃ st',
    _getTransformationFiles W d st = (Return (S_OK None), st') ∧
    (Status d ≠ "Flush" → history st' = history st ++ [listing]) ∧
    (Status d = "Flush" →
     history st' = history st ++ [listing; Event activate (OK answer)] ∧
     (OK answer = false →
      (Error, "Failed to update transformation status to 'Active': %s.") ∈ log st')).
Proof.
  intros Hans listing activate answer. unfold _getTransformationFiles.
  unfold mbind, ST_bind, bind at 1.
  rewrite remote_bound by exact transfClient_bound. rewrite Hans.
  cbn [OK]. fold listing. run.
  destruct (String.eqb_spec (Status d) "Flush") as [Hflush|Hother].
  - rewrite remote_bound by exact transfClient_bound.
    cbn [history set_log set_history]. fold activate. fold answer.
    clearbody answer.
    destruct answer as [[]|msg]; run; eexists; (split; [reflexivity|]);
      (split; [intros Hne; contradiction|]); intros _;
      cbn [history set_log set_history log OK]; rewrite <- app_assoc;
      (split; [reflexivity|]); intros Hfail; [discriminate|].
    apply elem_of_app. right. by apply list_elem_of_singleton.
  - eexists. split; [reflexivity|]. split; [reflexivity|].
    intros Hflush. contradiction.
Qed.

Lemma getTransformationFiles_none_unused_witness :
  ∃ st',
    _getTransformationFiles Sample.quiet Sample.t102 Sample.fresh
      = (Return (S_OK None), st') ∧
    history st'
      = [Event (Remote.getTransformationFiles 102 "Unused") true;
         Event (Remote.setTransformationParameter 102 "Status" "Active") true].
Proof.
  destruct (getTransformationFiles_none_unused Sample.quiet Sample.t102 Sample.fresh
              eq_refl) as (st' & Hrun & _ & Hflush).
  exists st'. split; [exact Hrun|]. exact (proj1 (Hflush eq_refl)).
Defined.

(** X5: when there are unused files and either their number differs from
    the recorded one or the status is ['Flush'], the helper returns the file
    list as the registry gave it, with the listing as its only call. *)
Theorem getTransformationFiles_new_files (W : world) (d : transDict) (st : agent)
    (transFiles : list transFile) :
  transfClient_getTransformationFiles W (history st) (TransformationID d) "Unused"
    = S_OK transFiles →
  transFiles ≠ [] →
  Z.of_nat (length transFiles) ≠ default 0 (unusedFiles st !! TransformationID d)
  ∨ Status d = "Flush" →
  _getTransformationFiles W d st
    = (Return (S_OK (Some transFiles)),
       set_history
         (history st
          ++ [Event (Remote.getTransformationFiles (TransformationID d) "Unused") true])
         st).
Proof.
  intros Hans Hne Hnew. unfold _getTransformationFiles.
  unfold mbind, ST_bind, bind at 1.
  rewrite remote_bound by exact transfClient_bound. rewrite Hans.
  destruct transFiles as [|f fs]; [contradiction|]. run.
  cbn [unusedFiles set_history].
  destruct Hnew as [Hlen|Hflush].
  - apply Z.eqb_neq in Hlen. rewrite Hlen. reflexivity.
  - rewrite Hflush. cbn [String.eqb Ascii.eqb Bool.eqb negb]. simpl.
    by rewrite andb_false_r.
Qed.

Lemma getTransformationFiles_new_files_witness :
  _getTransformationFiles Sample.two_unused Sample.t101 Sample.fresh
    = (Return (S_OK (Some [TransFile "f1"; TransFile "f2"])),
       set_history [Event (Remote.getTransformationFiles 101 "Unused") true]
                   Sample.fresh).
Proof.
  apply (getTransformationFiles_new_files Sample.two_unused Sample.t101 Sample.fresh
           [TransFile "f1"; TransFile "f2"]).
  - reflexivity.
  - discriminate.
  - left. vm_compute. discriminate.
Defined.

(** ** The poller in the mode for one named transformation *)

(** X6: with a named transformation configured, [execute] always returns
    [S_OK()].  When the client cannot give the descriptor the error is only
    logged and nothing is queued; otherwise the descriptor goes to the end
    of the queue and its identifier to the end of the in-flight list, unless
    the identifier is in flight already, in which case nothing is queued. *)
Theorem execute_named (W : world) (st : agent) (transName : string) :
  opt_Transformation st = Some transName → transName ≠ "All" →
  (execute W st).1 = Return (S_OK tt) ∧
  match transfClient_getTransformation W (history st) transName with
  | S_ERROR _ =>
      transInQueue (execute W st).2 = transInQueue st ∧
      transQueue (execute W st).2 = transQueue st ∧
      (Error, "Failed to obtain transformations: %s") ∈ log (execute W st).2
  | S_OK d =>
      if bool_decide (TransformationID d ∈ transInQueue st) then
        transInQueue (execute W st).2 = transInQueue st ∧
        transQueue (execute W st).2 = transQueue st
      else
        transInQueue (execute W st).2 = transInQueue st ++ [TransformationID d] ∧
        transQueue (execute W st).2 = transQueue st ++ [d]
  end.
Proof.
  intros Hopt Hne. unfold execute, getTransformations. run. rewrite Hopt. simpl.
  destruct (String.eqb_spec transName "All") as [?|_]; [contradiction|].
  destruct (transfClient_getTransformation W (history st) transName) as [d|msg]; run.
  - cbn [foldM]. unfold enqueue. run. cbn [transInQueue set_history set_log].
    case_bool_decide; run; done.
  - split; [reflexivity|]. split; [reflexivity|]. split; [reflexivity|].
    cbn [log set_log]. apply elem_of_app. right. by apply list_elem_of_singleton.
Qed.

Lemma execute_named_witness :
  (execute Sample.quiet Sample.named).1 = Return (S_OK tt) ∧
  transInQueue (execute Sample.quiet Sample.named).2 = [101] ∧
  transQueue (execute Sample.quiet Sample.named).2 = [Sample.t101].
Proof.
  destruct (execute_named Sample.quiet Sample.named "T101" eq_refl) as [Hret Hq].
  - discriminate.
  - split; [exact Hret|]. exact Hq.
Defined.

(** ** The worker loop *)

Lemma release_returns (transID : Z) (st : agent) :
  (release transID st).1 = Return tt.
Proof.
  unfold release. run. case_bool_decide as Hin; [|done].
  destruct (remove_first_elem_of _ _ Hin) as [l' ->]. done.
Qed.

Lemma release_queues (transID : Z) (st : agent) :
  transQueue (release transID st).2 = transQueue st ∧
  transInQueue (release transID st).2
    = if bool_decide (transID ∈ transInQueue st)
      then default (transInQueue st) (remove_first transID (transInQueue st))
      else transInQueue st.
Proof.
  unfold release. run. case_bool_decide as Hin; [|done].
  destruct (remove_first_elem_of _ _ Hin) as [l' ->]. done.
Qed.


Lemma execute_body_queues (process : transDict → M (result unit)) (d : transDict)
    (st : agent) :
  keeps_queues process →
  transQueue (_execute_body process d st).2 = transQueue st ∧
  transInQueue (_execute_body process d st).2
    = if bool_decide (TransformationID d ∈ transInQueue st)
      then default (transInQueue st) (remove_first (TransformationID d) (transInQueue st))
      else transInQueue st.
Proof.
  intros Hkeep. unfold _execute_body. run. set (st1 := set_log _ st).
  destruct (Hkeep d st1) as [Hin Hq].
  destruct (process d st1) as [[[[]|msg]|e] st2]; simpl in Hin, Hq |- *;
    [| |destruct (is_Exception e)].
  all: match goal with
       | |- context [release ?i ?s] =>
           destruct (release_queues i s) as [Hrq Hri];
           pose proof (release_returns i s) as Hr;
           destruct (release i s) as [[[]|e'] s']; simpl in *; try discriminate;
           rewrite Hrq, Hri, Hq, Hin; done
       end.
Qed.

(** One turn takes the first descriptor, whatever its outcome. *)
Lemma worker_turn_transQueue (process : transDict → M (result unit)) (st : agent) :
  keeps_queues process →
  transQueue (_execute process 1 st).2 = drop 1 (transQueue st).
Proof.
  intros Hkeep. cbn [_execute]. run.
  destruct (transQueue st) as [|d queue] eqn:Hq; [exact Hq|]. run.
  destruct (execute_body_queues process d (set_transQueue queue st) Hkeep) as [Hq' _].
  destruct (_execute_body process d (set_transQueue queue st)) as [[[]|e] st'];
    simpl in *; rewrite Hq'; reflexivity.
Qed.



(** X8: the worker takes the descriptors in the order they were queued: the
    first turns of the loop remove a prefix of the queue, and [n] turns that
    no exception has cut short remove the first [n] descriptors, or all of
    them when there are fewer. *)
Theorem worker_takes_queue_in_order (process : transDict → M (result unit)) (n : nat)
    (st : agent) :
  keeps_queues process →
  (∃ k, (k ≤ n)%nat ∧ transQueue (_execute process n st).2 = drop k (transQueue st)) ∧
  ((_execute process n st).1 = Return tt →
   transQueue (_execute process n st).2 = drop n (transQueue st)).
Proof.
  intros Hkeep. revert st. induction n as [|n IH]; intros st.
  { split; [exists 0%nat; split; [lia|reflexivity]|reflexivity]. }
  cbn [_execute]. run. destruct (transQueue st) as [|d queue] eqn:Hq.
  { simpl. rewrite Hq. split; [exists 0%nat; split; [lia|reflexivity]|reflexivity]. }
  run.
  destruct (execute_body_queues process d (set_transQueue queue st) Hkeep) as [Hq' _].
  destruct (_execute_body process d (set_transQueue queue st)) as [[[]|e] st'];
    simpl in *.
  - destruct (IH st') as [(k & Hk & Hdrop) Hall]. rewrite Hq' in Hdrop, Hall. split.
    + exists (S k). split; [lia|exact Hdrop].
    + exact Hall.
  - split; [|discriminate]. exists 1%nat. split; [lia|]. by rewrite Hq'.
Qed.

Lemma worker_takes_queue_in_order_witness :
  transQueue (_execute (processTransformation Sample.quiet) 1 Sample.queued).2
    = drop 1 (transQueue Sample.queued).
Proof.
  refine (proj2 (worker_takes_queue_in_order (processTransformation Sample.quiet) 1
                   Sample.queued _) _).
  - intros d st. split; reflexivity.
  - reflexivity.
Defined.

(** ** The queue and the in-flight list together *)

Lemma getTransformations_transQueue (W : world) (st : agent) :
  transQueue (getTransformations W st).2 = transQueue st.
Proof.
  unfold getTransformations, remote, getattr. run.
  destruct (String.eqb _ _); run.
  - case_bool_decide; run; [|done].
    by destruct (transDB_getTransformations W _ _ _).
  - case_bool_decide; run; [|done].
    by destruct (transfClient_getTransformation W _ _).
Qed.

Lemma enqueue_queues (count : Z) (d : transDict) (st : agent) :
  (TransformationID <$> transQueue st) = transInQueue st →
  (TransformationID <$> transQueue (enqueue count d st).2)
    = transInQueue (enqueue count d st).2.
Proof.
  intros Heq. unfold enqueue. run. case_bool_decide; run; [done|].
  cbn [transQueue transInQueue set_transQueue set_transInQueue].
  by rewrite fmap_app, Heq.
Qed.

Lemma foldM_enqueue_queues (ds : list transDict) (count : Z) (st : agent) :
  (TransformationID <$> transQueue st) = transInQueue st →
  (TransformationID <$> transQueue (foldM enqueue count ds st).2)
    = transInQueue (foldM enqueue count ds st).2.
Proof.
  revert count st. induction ds as [|d ds IH]; intros count st Heq; [done|].
  cbn [foldM]. unfold bind.
  destruct (enqueue_returns count d st) as [count' Hret].
  pose proof (enqueue_queues count d st Heq) as Heq'.
  destruct (enqueue count d st) as [o st']. simpl in *. subst o. by apply IH.
Qed.

Lemma execute_queues (W : world) (st : agent) :
  (TransformationID <$> transQueue st) = transInQueue st →
  (TransformationID <$> transQueue (execute W st).2) = transInQueue (execute W st).2.
Proof.
  intros Heq. unfold execute. run.
  pose proof (getTransformations_transInQueue W st) as Hi.
  pose proof (getTransformations_transQueue W st) as Hq.
  destruct (getTransformations W st) as [[[ds|msg]|e] st']; simpl in *.
  - assert ((TransformationID <$> transQueue st') = transInQueue st') as Heq'
      by (by rewrite Hi, Hq).
    pose proof (foldM_enqueue_queues ds 0 st' Heq') as Hloop.
    destruct (foldM enqueue 0 ds st') as [[n|e] st'']; simpl in *; exact Hloop.
  - by rewrite Hi, Hq.
  - by rewrite Hi, Hq.
Qed.

Lemma execute_turns_queues (process : transDict → M (result unit)) (n : nat) :
  keeps_queues process →
  ∀ st, (TransformationID <$> transQueue st) = transInQueue st →
        (TransformationID <$> transQueue (_execute process n st).2)
          = transInQueue (_execute process n st).2.
Proof.
  intros Hkeep. induction n as [|n IH]; intros st Heq; [done|].
  cbn [_execute]. run.
  destruct (transQueue st) as [|d queue] eqn:Hq; [simpl; by rewrite Hq|]. run.
  destruct (execute_body_queues process d (set_transQueue queue st) Hkeep) as [Hq' Hi'].
  assert ((TransformationID <$> transQueue (_execute_body process d
                                              (set_transQueue queue st)).2)
          = transInQueue (_execute_body process d (set_transQueue queue st)).2) as Heq'.
  { rewrite Hq', Hi'. cbn [transQueue transInQueue set_transQueue].
    rewrite <- Heq. cbn [fmap list_fmap].
    rewrite bool_decide_eq_true_2 by left.
    cbn [remove_first]. rewrite bool_decide_eq_true_2 by done. reflexivity. }
  destruct (_execute_body process d (set_transQueue queue st)) as [[[]|e] st'];
    simpl in *; [by apply IH|exact Heq'].
Qed.

(** X9: between the turns of the poller and of one worker, the in-flight
    list is exactly the list of the identifiers of the queued descriptors,
    in queue order; so no transformation is in the queue twice. *)
Theorem queue_matches_transInQueue (W : world) (st : agent) :
  at_turn W st →
  (TransformationID <$> transQueue st) = transInQueue st ∧
  NoDup (TransformationID <$> transQueue st).
Proof.
  intros Hturn.
  assert ((TransformationID <$> transQueue st) = transInQueue st ∧
          NoDup (transInQueue st)) as [Heq Hnd]; [|by rewrite Heq].
  induction Hturn as [o disk|st st' _ [Heq Hnd] Hstep].
  - unfold __init__, __readCache. run. destruct disk; simpl; split;
      (reflexivity || apply NoDup_nil_2).
  - destruct Hstep as [st|process n st Hkeep].
    + split; [by apply execute_queues|by apply execute_NoDup].
    + split; [by apply execute_turns_queues|].
      apply execute_turns_NoDup; [|exact Hnd]. intros d s. apply Hkeep.
Qed.

Lemma queue_matches_transInQueue_witness :
  (TransformationID <$> transQueue (execute Sample.quiet Sample.named).2)
    = transInQueue (execute Sample.quiet Sample.named).2 ∧
  NoDup (TransformationID <$> transQueue (execute Sample.quiet Sample.named).2).
Proof.
  apply (queue_matches_transInQueue Sample.quiet).
  apply (at_turn_next Sample.quiet Sample.named).
  - apply (at_turn_init Sample.quiet (Options None None None (Some "T101")) Unreadable).
  - apply (turn_execute Sample.quiet Sample.named).
Defined.

(** ** Shutdown *)

Lemma worker_turn_transInQueue (process : transDict → M (result unit)) (st : agent) :
  keeps_queues process →
  (TransformationID <$> transQueue st) = transInQueue st →
  transInQueue (_execute process 1 st).2 = drop 1 (transInQueue st).
Proof.
  intros Hkeep Heq.
  rewrite <- (execute_turns_queues process 1 Hkeep st Heq).
  rewrite (worker_turn_transQueue process st Hkeep).
  by rewrite fmap_drop, Heq.
Qed.

Lemma wait_for_queue_drained (process : transDict → M (result unit)) (fuel : nat) :
  keeps_queues process →
  ∀ st,
    (TransformationID <$> transQueue st) = transInQueue st →
    (length (transInQueue st) ≤ fuel)%nat →
    ∃ st',
      wait_for_queue (λ s, (_execute process 1 s).2) fuel st = (Return true, st') ∧
      transInQueue st' = [] ∧ transQueue st' = [].
Proof.
  intros Hkeep. induction fuel as [|fuel IH]; intros st Heq Hlen.
  - cbn [wait_for_queue]. run.
    destruct (transInQueue st) as [|x l] eqn:Hin; [|simpl in Hlen; lia].
    exists st. split; [reflexivity|]. split; [exact Hin|].
    by apply fmap_nil_inv in Heq.
  - cbn [wait_for_queue]. run.
    destruct (transInQueue st) as [|x l] eqn:Hin.
    + exists st. split; [reflexivity|]. split; [exact Hin|].
      by apply fmap_nil_inv in Heq.
    + run. apply IH.
      * apply execute_turns_queues; [exact Hkeep|]. by rewrite Heq, Hin.
      * rewrite worker_turn_transInQueue by (exact Hkeep || by rewrite Heq, Hin).
        rewrite Hin. simpl in *. rewrite drop_0. lia.
Qed.

(** X10: shutdown ends once the worker has drained the queue.  From a store
    where the in-flight list mirrors the queue, with a worker that takes one
    descriptor during each sleep, [finalize] returns [S_OK()] within as many
    sleeps as there are transformations in flight, and both the queue and
    the in-flight list are then empty. *)
Theorem finalize_returns_when_drained (process : transDict → M (result unit))
    (fuel : nat) (st : agent) :
  keeps_queues process →
  (TransformationID <$> transQueue st) = transInQueue st →
  (length (transInQueue st) ≤ fuel)%nat →
  ∃ st',
    finalize (λ s, (_execute process 1 s).2) fuel st = (Return (Some (S_OK tt)), st') ∧
    transInQueue st' = [] ∧ transQueue st' = [].
Proof.
  intros Hkeep Heq Hlen. unfold finalize. run.
  destruct (transInQueue st) as [|x l] eqn:Hin.
  - exists st. split; [reflexivity|]. split; [exact Hin|].
    by apply fmap_nil_inv in Heq.
  - run. set (st0 := set_log _ st).
    destruct (wait_for_queue_drained process fuel Hkeep st0) as (st' & -> & Hi & Hq).
    + unfold st0. cbn [transQueue transInQueue set_log]. by rewrite Heq, Hin.
    + unfold st0. cbn [transInQueue set_log]. by rewrite Hin.
    + run. eexists. split; [reflexivity|].
      cbn [transQueue transInQueue set_log]. done.
Qed.

Lemma finalize_returns_when_drained_witness :
  ∃ st',
    finalize (λ s, (_execute (processTransformation Sample.quiet) 1 s).2) 1 Sample.queued
      = (Return (Some (S_OK tt)), st') ∧
    transInQueue st' = [] ∧ transQueue st' = [].
Proof.
  apply (finalize_returns_when_drained (processTransformation Sample.quiet) 1
           Sample.queued).
  - intros d st. split; reflexivity.
  - reflexivity.
  - simpl. lia.
Defined.

(** ** Accounting of the submitted files *)

Lemma addTask_loop_counts (W : world) (transID : Z) (tasks : list (string * list string))
    (allCreated : bool) (created unused : Z) (st : agent) :
  ∃ created' st',
    foldM (addTask W transID) (allCreated, created, unused) tasks st
      = (Return (allCreated && forallb ev_ok (submissions W transID (history st) tasks),
                 created', unused - submitted_files W transID (history st) tasks), st') ∧
    history st' = history st ++ submissions W transID (history st) tasks ∧
    unusedFiles st' = unusedFiles st.
Proof.
  revert allCreated created unused st.
  induction tasks as [|[se lfns] tasks IH]; intros allCreated created unused st.
  - exists created, st. simpl. unfold ret.
    rewrite andb_true_r, app_nil_r, Z.sub_0_r. done.
  - cbn [foldM submissions submitted_files]. unfold bind at 1. unfold addTask at 1. run.
    rewrite remote_bound by exact transfClient_bound.
    destruct (transfClient_addTaskForTransformation W (history st) transID lfns se)
      as [[]|msg] eqn:Hans; cbn [OK forallb ev_ok].
    + edestruct IH as (created' & st' & -> & Hh & Hu). simpl in Hh, Hu.
      exists created', st'. split; [do 3 f_equal; cbn [history set_history]; lia|].
      split; [by rewrite Hh, <- app_assoc|exact Hu].
    + edestruct IH as (created' & st' & -> & Hh & Hu). simpl in Hh, Hu.
      exists created', st'. rewrite andb_false_r. split; [do 3 f_equal; cbn [history set_history]; lia|].
      split; [by rewrite Hh, <- app_assoc|exact Hu].
Qed.

(** X11: whatever the status, the submission step returns [S_OK()] and
    records for the transformation the number of files it started with
    minus the files of the groups whose submission answered ['OK']; for a
    status other than ['Flush'] its only calls are the submissions, one per
    group in order, so the status is left as it is. *)
Theorem createTasks_accounting (W : world) (transDict : transDict)
    (tasks : list (string * list string)) (unusedFiles0 : Z) (st : agent) :
  let transID := TransformationID transDict in
  ∃ st',
    createTasks W transDict tasks unusedFiles0 st = (Return (S_OK tt), st') ∧
    unusedFiles st'
      = <[transID := unusedFiles0 - submitted_files W transID (history st) tasks]>
          (unusedFiles st) ∧
    (Status transDict ≠ "Flush" →
     history st' = history st ++ submissions W transID (history st) tasks).
Proof.
  intros transID. unfold createTasks. fold transID.
  unfold mbind, ST_bind, bind at 1.
  destruct (addTask_loop_counts W transID tasks true 0 unusedFiles0 st)
    as (created' & st1 & -> & Hh1 & Hu1).
  cbn [andb].
  set (subs := submissions W transID (history st) tasks) in *.
  set (left_over := unusedFiles0 - submitted_files W transID (history st) tasks).
  assert (Hframe : ∀ s : agent, history s = history st1 → unusedFiles s = unusedFiles st1 →
     ∃ st', ((modify (λ st0, set_unusedFiles (<[transID:=left_over]> (unusedFiles st0)) st0) ;;
              (if String.eqb (Status transDict) "Flush" && forallb ev_ok subs
               then res ← remote "transfClient"
                            (Remote.setTransformationParameter transID "Status" "Active")
                            (λ h, transfClient_setTransformationParameter W h transID
                                    "Status" "Active");
                    match res with
                    | S_OK _ => logMsg Info "Updated transformation status to 'Active'."
                    | S_ERROR _ =>
                        logMsg Error
                          "Failed to update transformation status to 'Active': %s."
                    end
               else ret tt) ;;
              ret (S_OK tt)) s : outcome (result unit) * agent)
            = (Return (S_OK tt), st') ∧
           unusedFiles st' = <[transID:=left_over]> (unusedFiles st) ∧
           (Status transDict ≠ "Flush" → history st' = history st ++ subs)).
  { intros s Hs Hu. run.
    destruct (String.eqb_spec (Status transDict) "Flush") as [Hflush|Hother]; cbn [andb].
    - destruct (forallb ev_ok subs).
      + rewrite remote_bound by exact transfClient_bound.
        destruct (transfClient_setTransformationParameter W _ transID "Status" "Active")
          as [[]|msg]; run; eexists; (split; [reflexivity|]);
          cbn [unusedFiles set_log set_history set_unusedFiles];
          rewrite Hu, Hu1; (split; [reflexivity|]); intros Hne; contradiction.
      + eexists. split; [reflexivity|]. cbn [unusedFiles set_unusedFiles].
        rewrite Hu, Hu1. split; [reflexivity|]. intros Hne. contradiction.
    - eexists. split; [reflexivity|]. cbn [unusedFiles history set_unusedFiles].
      rewrite Hu, Hu1, Hs, Hh1. done. }
  destruct (created' =? 0).
  - destruct (Hframe st1 eq_refl eq_refl) as (st' & Hrun & Hu & Hh).
    exists st'. done.
  - destruct (Hframe (set_log (log st1
        ++ [(Info, "Successfully created %d tasks for transformation.")]) st1)
        eq_refl eq_refl) as (st' & Hrun & Hu & Hh).
    exists st'. done.
Qed.

Lemma createTasks_accounting_witness :
  ∃ st',
    createTasks Sample.quiet Sample.t101 [("SE1", ["f1"; "f2"]); ("SE2", ["f3"])] 5
                Sample.fresh
      = (Return (S_OK tt), st') ∧
    unusedFiles st' = {[ 101 := 2 ]} ∧
    history st'
      = [Event (Remote.addTaskForTransformation 101 ["f1"; "f2"] "SE1") true;
         Event (Remote.addTaskForTransformation 101 ["f3"] "SE2") true].
Proof.
  destruct (createTasks_accounting Sample.quiet Sample.t101
              [("SE1", ["f1"; "f2"]); ("SE2", ["f3"])] 5 Sample.fresh)
    as (st' & Hrun & Hu & Hh).
  exists st'. split; [exact Hrun|]. split; [exact Hu|].
  apply Hh. discriminate.
Defined.

(** ** The catalog helper *)

Lemma getDataReplicasRM_unfold (W : world) (transID : Z) (lfns : list string)
    (active : bool) :
  __getDataReplicasRM W transID lfns active
  = (res ← (if active
            then remote "rm" (Remote.getActiveReplicas lfns)
                        (λ h, rm_getActiveReplicas W h lfns)
            else remote "rm" (Remote.getReplicas lfns) (λ h, rm_getReplicas W h lfns));
     match res with
     | S_ERROR msg => ret (S_ERROR msg)
     | S_OK Value =>
         logMsg Info "Replica results for %d files obtained in %.2f seconds" ;;
         dataReplicas ← foldM (keep_file active) ∅ (map_to_list (Successful Value));
         missingLfns ← foldM note_missing [] (map_to_list (Failed Value));
         match missingLfns with
         | [] => ret tt
         | _ =>
             res ← remote "transfClient"
                     (Remote.setFileStatusForTransformation transID "MissingLFC" missingLfns)
                     (λ h, transfClient_setFileStatusForTransformation W h
                             transID "MissingLFC" missingLfns);
             match res with
             | S_ERROR _ => logMsg Warn "Failed to update status of missing files: %s."
             | S_OK _ => ret tt
             end
         end ;;
         if bool_decide (dataReplicas = ∅) then ret (S_ERROR "No replicas obtained")
         else ret (S_OK dataReplicas)
     end).
Proof. reflexivity. Qed.

Lemma foldl_insert_filter_lookup (P : string * string → Prop)
    `{!∀ kv, Decision (P kv)} (l : list (string * string)) :
  ∀ (m : replicas) (k : string),
    NoDup l.*1 →
    foldl (λ m kv, <[kv.1 := kv.2]> m) m (filter P l) !! k
    = match (list_to_map l : replicas) !! k with
      | Some v => if decide (P (k, v)) then Some v else m !! k
      | None => m !! k
      end.
Proof.
  induction l as [|[a b] l IH]; intros m k Hnd; [done|].
  cbn [fmap list_fmap fst] in Hnd. apply NoDup_cons in Hnd as [Ha Hnd].
  rewrite list_to_map_cons, filter_cons.
  destruct (decide (P (a, b))) as [HP|HP]; cbn [foldl fst snd].
  - rewrite IH by exact Hnd. destruct (decide (k = a)) as [->|Hne].
    + rewrite lookup_insert_eq, (not_elem_of_list_to_map_1 l a Ha), lookup_insert_eq.
      by rewrite decide_True.
    + by rewrite !lookup_insert_ne.
  - rewrite IH by exact Hnd. destruct (decide (k = a)) as [->|Hne].
    + rewrite lookup_insert_eq, (not_elem_of_list_to_map_1 l a Ha).
      by rewrite decide_False.
    + by rewrite lookup_insert_ne.
Qed.

Lemma kept_replicas (active : bool) (replicaDict : replicas) :
  foldl (λ m kv, <[kv.1 := kv.2]> m) (∅ : replicas)
        (filter (λ kv, failover active kv.1 = false) (map_to_list replicaDict))
  = usable_replicas active replicaDict.
Proof.
  apply map_eq. intros k.
  rewrite (foldl_insert_filter_lookup (λ kv, failover active kv.1 = false))
    by apply NoDup_fst_map_to_list.
  rewrite list_to_map_to_list. unfold usable_replicas.
  apply option_eq. intros v. rewrite map_lookup_filter_Some. simpl.
  destruct (replicaDict !! k) as [v'|].
  - destruct (decide (failover active k = false)); [tauto|].
    rewrite lookup_empty. split; [discriminate|tauto].
  - rewrite lookup_empty. split; [discriminate|]. intros [? _]. discriminate.
Qed.

Lemma keep_replicas_loop (active : bool) (lfn : string) (l : list (string * string)) :
  ∀ (dataReplicas : replicaMap) (st : agent),
    ∃ st',
      foldM (keep_replica active lfn) dataReplicas l st
      = (Return
           match filter (λ kv, failover active kv.1 = false) l with
           | [] => dataReplicas
           | kept =>
               <[lfn := foldl (λ m kv, <[kv.1 := kv.2]> m)
                              (default ∅ (dataReplicas !! lfn)) kept]> dataReplicas
           end, st') ∧
      history st' = history st.
Proof.
  induction l as [|[se pfn] l IH]; intros dataReplicas st.
  - exists st. done.
  - cbn [foldM]. unfold bind, keep_replica at 1. rewrite filter_cons.
    destruct (decide (failover active (se, pfn).1 = false)) as [Hfail|Hfail];
      cbn [fst] in Hfail; unfold failover in Hfail;
      [|apply not_false_iff_true in Hfail]; rewrite Hfail.
    2: { run.
      destruct (IH dataReplicas
                  (set_log (log st ++ [(Warn, "Ignoring failover replica for %s.")]) st))
        as (st' & -> & Hh).
      exists st'. done. }
    + unfold subscript. run.
      destruct (dataReplicas !! lfn) as [ses|] eqn:Hlfn; cbn [from_option id].
      * rewrite Hlfn. run.
        destruct (IH (<[lfn := <[se := pfn]> ses]> dataReplicas) st) as (st' & -> & Hh).
        exists st'. split; [|exact Hh]. f_equal. rewrite lookup_insert_eq.
        cbn [from_option id].
        destruct (filter _ l); cbn [foldl fst snd]; [done|].
        by rewrite insert_insert_eq.
      * rewrite lookup_insert_eq. run. rewrite insert_insert_eq.
        destruct (IH (<[lfn := <[se := pfn]> ∅]> dataReplicas) st) as (st' & -> & Hh).
        exists st'. split; [|exact Hh]. f_equal. rewrite lookup_insert_eq.
        cbn [from_option id].
        destruct (filter _ l); cbn [foldl fst snd]; [done|].
        by rewrite insert_insert_eq.
Qed.

Lemma keep_files_loop (active : bool) (l : list (string * replicas)) :
  ∀ (dataReplicas : replicaMap) (st : agent),
    NoDup l.*1 → (∀ lfn, lfn ∈ l.*1 → dataReplicas !! lfn = None) →
    ∃ dataReplicas' st',
      foldM (keep_file active) dataReplicas l st = (Return dataReplicas', st') ∧
      history st' = history st ∧
      ∀ x, dataReplicas' !! x
           = match (list_to_map l : replicaMap) !! x with
             | Some replicaDict =>
                 if bool_decide (usable_replicas active replicaDict = ∅) then None
                 else Some (usable_replicas active replicaDict)
             | None => dataReplicas !! x
             end.
Proof.
  induction l as [|[lfn replicaDict] l IH]; intros dataReplicas st Hnd Hfresh.
  - exists dataReplicas, st. done.
  - cbn [fmap list_fmap fst] in Hnd. apply NoDup_cons in Hnd as [Hlfn Hnd].
    cbn [foldM]. unfold bind, keep_file at 1.
    destruct (keep_replicas_loop active lfn (map_to_list replicaDict) dataReplicas st)
      as (st1 & -> & Hh1).
    rewrite (Hfresh lfn) by left. cbn [from_option id].
    set (dataReplicas1 := match filter _ (map_to_list replicaDict) with
                          | [] => dataReplicas | _ => _ end).
    assert (Hother : ∀ x, x ≠ lfn → dataReplicas1 !! x = dataReplicas !! x).
    { intros x Hne. unfold dataReplicas1. destruct (filter _ _); [done|].
      by rewrite lookup_insert_ne. }
    assert (Hhere : dataReplicas1 !! lfn
                    = if bool_decide (usable_replicas active replicaDict = ∅) then None
                      else Some (usable_replicas active replicaDict)).
    { unfold dataReplicas1.
      pose proof (kept_replicas active replicaDict) as Hkept.
      destruct (filter _ (map_to_list replicaDict)) as [|kv kept] eqn:Hfilter.
      - cbn [foldl] in Hkept. rewrite <- Hkept, bool_decide_eq_true_2 by done.
        apply Hfresh. left.
      - rewrite lookup_insert_eq, Hkept. rewrite bool_decide_eq_false_2; [done|].
        intros Hempty.
        assert (kv ∈ filter (λ kv, failover active kv.1 = false)
                            (map_to_list replicaDict)) as Hin
          by (rewrite Hfilter; left).
        apply list_elem_of_filter in Hin as [HP Hin].
        destruct kv as [se pfn]. apply elem_of_map_to_list in Hin.
        assert (usable_replicas active replicaDict !! se = Some pfn) as Hse
          by (by apply map_lookup_filter_Some).
        rewrite Hempty in Hse. by rewrite lookup_empty in Hse. }
    destruct (IH dataReplicas1 st1 Hnd) as (dataReplicas' & st' & -> & Hh & Hdr).
    { intros x Hx. rewrite Hother; [apply Hfresh; by right|].
      intros ->. contradiction. }
    exists dataReplicas', st'. split; [reflexivity|]. split; [congruence|].
    intros x. rewrite Hdr, list_to_map_cons.
    destruct (decide (x = lfn)) as [->|Hne].
    + by rewrite lookup_insert_eq, (not_elem_of_list_to_map_1 l lfn Hlfn).
    + rewrite lookup_insert_ne by done. by rewrite Hother.
Qed.

Lemma note_missing_loop (l : list (string * string)) :
  ∀ (missingLfns : list string) (st : agent),
    ∃ st',
      foldM note_missing missingLfns l st
      = (Return (missingLfns
                 ++ (filter (λ kv, search "No such file or directory" kv.2 = true) l).*1),
         st') ∧
      history st' = history st.
Proof.
  induction l as [|[lfn reason] l IH]; intros missingLfns st.
  - exists st. cbn. by rewrite app_nil_r.
  - cbn [foldM]. unfold bind, note_missing at 1. rewrite filter_cons.
    destruct (decide (search "No such file or directory" (lfn, reason).2 = true))
      as [Hs|Hs]; cbn [snd] in Hs; [|apply not_true_iff_false in Hs]; rewrite Hs.
    + run.
      destruct (IH (missingLfns ++ [lfn])
                  (set_log (log st ++ [(Warn, "%s not found in the catalog.")]) st))
        as (st' & -> & Hh).
      exists st'. split; [|exact Hh]. cbn [fmap list_fmap fst].
      by rewrite <- app_assoc.
    + run.
      destruct (IH missingLfns st) as (st' & -> & Hh). exists st'. done.
Qed.

(** What the helper returns and whom it calls, once the catalog has
    answered. *)
Lemma getDataReplicasRM_spec (W : world) (transID : Z) (lfns : list string)
    (active : bool) (st : agent) (reply : catalogReply) :
  (if active then rm_getActiveReplicas W (history st) lfns
   else rm_getReplicas W (history st) lfns) = S_OK reply →
  let lookup := if active then Remote.getActiveReplicas lfns else Remote.getReplicas lfns in
  let h1 := history st ++ [Event lookup true] in
  let report :=
    Remote.setFileStatusForTransformation transID "MissingLFC" (missing (Failed reply)) in
  ∃ st',
    __getDataReplicasRM W transID lfns active st
      = (Return (if bool_decide (usable active (Successful reply) = ∅)
                 then S_ERROR "No replicas obtained"
                 else S_OK (usable active (Successful reply))), st') ∧
    history st'
      = h1 ++ match missing (Failed reply) with
              | [] => []
              | _ => [Event report
                        (OK (transfClient_setFileStatusForTransformation W h1 transID
                               "MissingLFC" (missing (Failed reply))))]
              end.
Proof.
  intros Hans lookup h1 report. rewrite getDataReplicasRM_unfold.
  unfold mbind, ST_bind, bind at 1.
  assert ((if active
           then remote "rm" (Remote.getActiveReplicas lfns)
                       (λ h, rm_getActiveReplicas W h lfns)
           else remote "rm" (Remote.getReplicas lfns) (λ h, rm_getReplicas W h lfns)) st
          = (Return (S_OK reply), set_history h1 st)) as ->.
  { unfold h1, lookup. destruct active; rewrite remote_bound by exact rm_bound;
      by rewrite Hans. }
  unfold bind at 1. unfold logMsg at 1, modify at 1.
  set (st1 := set_log _ (set_history h1 st)).
  unfold bind at 1.
  destruct (keep_files_loop active (map_to_list (Successful reply)) ∅ st1)
    as (dataReplicas & st2 & -> & Hh2 & Hdr).
  { apply NoDup_fst_map_to_list. }
  { intros lfn _. apply lookup_empty. }
  assert (dataReplicas = usable active (Successful reply)) as ->.
  { apply map_eq. intros x. rewrite Hdr, list_to_map_to_list.
    unfold usable. rewrite lookup_omap.
    destruct (Successful reply !! x); [done|apply lookup_empty]. }
  unfold bind at 1.
  destruct (note_missing_loop (map_to_list (Failed reply)) [] st2) as (st3 & -> & Hh3).
  rewrite app_nil_l. fold (missing (Failed reply)).
  assert (history st3 = h1) as Hh by (by rewrite Hh3, Hh2).
  unfold bind at 1.
  destruct (missing (Failed reply)) as [|lfn missingLfns] eqn:Hmissing.
  - unfold ret at 1. exists st3. rewrite app_nil_r.
    split; [|exact Hh]. by destruct (bool_decide _).
  - unfold bind at 1. rewrite remote_bound by exact transfClient_bound. rewrite Hh.
    destruct (transfClient_setFileStatusForTransformation W h1 transID "MissingLFC"
                (lfn :: missingLfns)) as [[]|msg]; run;
      eexists; (split; [by destruct (bool_decide _)|]);
      cbn [history set_log set_history OK]; reflexivity.
Qed.





(** X13: once the catalog has answered, the files reported to the registry
    as ['MissingLFC'] are exactly those whose failure reason contains
    ["No such file or directory"], each once; they go in one request made
    right after the catalog lookup, and no request is made when there is
    none.  These are the only calls of the helper. *)
Theorem getDataReplicasRM_reports_missing (W : world) (transID : Z) (lfns : list string)
    (active : bool) (st : agent) (reply : catalogReply) :
  (if active then rm_getActiveReplicas W (history st) lfns
   else rm_getReplicas W (history st) lfns) = S_OK reply →
  let lookup := if active then Remote.getActiveReplicas lfns else Remote.getReplicas lfns in
  let h1 := history st ++ [Event lookup true] in
  let st' := (__getDataReplicasRM W transID lfns active st).2 in
  NoDup (missing (Failed reply)) ∧
  (∀ lfn, lfn ∈ missing (Failed reply)
          ↔ ∃ reason, Failed reply !! lfn = Some reason
                      ∧ search "No such file or directory" reason = true) ∧
  (missing (Failed reply) = [] → history st' = h1) ∧
  (missing (Failed reply) ≠ [] →
   ∃ ok, history st'
         = h1 ++ [Event (Remote.setFileStatusForTransformation transID "MissingLFC"
                           (missing (Failed reply))) ok]).
Proof.
  intros Hans lookup h1 st'.
  destruct (getDataReplicasRM_spec W transID lfns active st reply Hans)
    as (st1 & Hrun & Hh).
  assert (st' = st1) as -> by (unfold st'; by rewrite Hrun).
  fold lookup in Hh. fold h1 in Hh. split; [|split; [|split]].
  - unfold missing.
    apply (sublist_NoDup _ ((map_to_list (Failed reply)).*1)).
    + apply NoDup_fst_map_to_list.
    + apply fmap_sublist, sublist_filter.
  - intros lfn. unfold missing. rewrite list_elem_of_fmap. split.
    + intros ([lfn' reason] & -> & Hin). apply list_elem_of_filter in Hin as [Hs Hin].
      apply elem_of_map_to_list in Hin. by exists reason.
    + intros (reason & Hfailed & Hs). exists (lfn, reason). split; [done|].
      apply list_elem_of_filter. split; [exact Hs|]. by apply elem_of_map_to_list.
  - intros Hnone. rewrite Hnone in Hh. by rewrite app_nil_r in Hh.
  - intros Hsome. destruct (missing (Failed reply)); [contradiction|]. eauto.
Qed.

Lemma getDataReplicasRM_reports_missing_witness :
  history (__getDataReplicasRM Sample.with_catalog 7 ["a"; "b"; "c"; "d"] true
                               Sample.fresh).2
    = [Event (Remote.getActiveReplicas ["a"; "b"; "c"; "d"]) true;
       Event (Remote.setFileStatusForTransformation 7 "MissingLFC" ["c"]) false].
Proof.
  destruct (getDataReplicasRM_reports_missing Sample.with_catalog 7
              ["a"; "b"; "c"; "d"] true Sample.fresh Sample.reply eq_refl)
    as (_ & _ & _ & Hsome).
  destruct Hsome as [ok Hh]; [vm_compute; discriminate|].
  vm_compute. reflexivity.
Defined.

(** X14: when the catalog lookup itself fails, the helper hands that error
    back with its message and does nothing else: the lookup is its only
    call, nothing is reported to the registry and nothing is logged. *)
Theorem getDataReplicasRM_catalog_error (W : world) (transID : Z) (lfns : list string)
    (active : bool) (st : agent) (msg : string) :
  (if active then rm_getActiveReplicas W (history st) lfns
   else rm_getReplicas W (history st) lfns) = S_ERROR msg →
  __getDataReplicasRM W transID lfns active st
    = (Return (S_ERROR msg),
       set_history
         (history st
          ++ [Event (if active then Remote.getActiveReplicas lfns
                     else Remote.getReplicas lfns) false])
         st).
Proof.
  intros Hans. rewrite getDataReplicasRM_unfold.
  unfold mbind, ST_bind, bind at 1.
  destruct active; rewrite remote_bound by exact rm_bound; by rewrite Hans.
Qed.

Lemma getDataReplicasRM_catalog_error_witness :
  __getDataReplicasRM Sample.with_catalog 7 ["a"] false Sample.fresh
    = (Return (S_ERROR "catalog down"),
       set_history [Event (Remote.getReplicas ["a"]) false] Sample.fresh).
Proof.
  apply (getDataReplicasRM_catalog_error Sample.with_catalog 7 ["a"] false Sample.fresh
           "catalog down").
  reflexivity.
Defined.

Lemma getTransformationFiles_error_witness :
  ∃ st',
    _getTransformationFiles Sample.with_catalog Sample.t101 Sample.fresh
      = (Return (S_ERROR "registry down"), st') ∧
    history st' = [Event (Remote.getTransformationFiles 101 "Unused") false].
Proof.
  destruct (getTransformationFiles_error Sample.with_catalog Sample.t101 Sample.fresh
              "registry down" eq_refl) as (st' & Hrun & Hh & _).
  exists st'. split; [exact Hrun|exact Hh].
Defined.

(** ** What a computation leaves alone *)

Section Preserves.
Context {S X : Type} (proj : S → X).

Lemma preserves_ret {A} (a : A) : preserves proj (ret a : ST S A).
Proof. intros st. reflexivity. Qed.

Lemma preserves_raise {A} (e : exn) : preserves proj (raise e : ST S A).
Proof. intros st. reflexivity. Qed.

Lemma preserves_get : preserves proj (get : ST S S).
Proof. intros st. reflexivity. Qed.

Lemma preserves_modify (f : S → S) :
  (∀ st, proj (f st) = proj st) → preserves proj (modify f).
Proof. intros Hf st. apply Hf. Qed.

Lemma preserves_bind {A B} (c : ST S A) (k : A → ST S B) :
  preserves proj c → (∀ a, preserves proj (k a)) → preserves proj (bind c k).
Proof.
  intros Hc Hk st. unfold bind. specialize (Hc st).
  destruct (c st) as [[a|e] st']; simpl in *; [|exact Hc].
  by rewrite Hk.
Qed.

Lemma preserves_try_except {A} (body : ST S A) (handler : exn → ST S A) :
  preserves proj body → (∀ e, preserves proj (handler e)) →
  preserves proj (try_except body handler).
Proof.
  intros Hb Hh st. unfold try_except. specialize (Hb st).
  destruct (body st) as [[a|e] st']; simpl in *; [exact Hb|].
  by rewrite Hh.
Qed.

Lemma preserves_foldM {A B} (body : B → A → ST S B) (l : list A) :
  (∀ acc x, preserves proj (body acc x)) → ∀ acc, preserves proj (foldM body acc l).
Proof.
  intros Hbody. induction l as [|x l IH]; intros acc.
  - apply preserves_ret.
  - apply preserves_bind; [apply Hbody|exact IH].
Qed.

Lemma preserves_forM_ {A} (l : list A) (body : A → ST S unit) :
  (∀ x, preserves proj (body x)) → preserves proj (forM_ l body).
Proof. intros Hbody. apply preserves_foldM. intros _ x. apply Hbody. Qed.

Lemma preserves_subscript `{Countable K} {V} (d : gmap K V) (k : K) :
  preserves proj (subscript d k : ST S V).
Proof. intros st. unfold subscript. by destruct (d !! k). Qed.

End Preserves.

(** Steps through a method built from the operations above. *)
Ltac frame :=
  unfold mbind, mret, ST_bind, ST_ret;
  repeat first
    [ apply preserves_ret | apply preserves_raise | apply preserves_get
    | apply preserves_subscript
    | apply preserves_bind; [|intros ?]
    | apply preserves_forM_; intros ?
    | apply preserves_try_except; [|intros ?]
    | match goal with
      | |- preserves _ (if ?b then _ else _) => destruct b
      | |- preserves _ (match ?x with _ => _ end) => destruct x
      end ].

Section CacheFrame.
Context (W : world) {X : Type} (proj : agent → X).
Hypothesis proj_cache : ∀ c st, proj (set_replicaCache c st) = proj st.
Hypothesis proj_log : ∀ l st, proj (set_log l st) = proj st.
Hypothesis proj_file : ∀ f st, proj (set_cacheFile f st) = proj st.

Lemma logMsg_preserves (lv : level) (msg : string) : preserves proj (logMsg lv msg).
Proof. apply preserves_modify. intros st. apply proj_log. Qed.

Lemma writeCache_preserves : preserves proj (__writeCache W).
Proof.
  unfold __writeCache. frame; first [apply logMsg_preserves|apply preserves_modify].
  all: intros st; first [apply proj_file|apply proj_cache].
Qed.

Lemma readCache_preserves : preserves proj __readCache.
Proof.
  unfold __readCache. frame; first [apply logMsg_preserves|apply preserves_modify].
  all: intros st; first [apply proj_file|apply proj_cache].
Qed.

Lemma cleanCache_preserves : preserves proj (__cleanCache W).
Proof.
  unfold __cleanCache, clean_transformation, clean_snapshot.
  frame; first [apply logMsg_preserves|apply writeCache_preserves|apply preserves_modify].
  all: intros st; first [apply proj_file|apply proj_cache].
Qed.

Lemma pluginCallback_preserves (transID : Z) (invalidateCache : bool) :
  preserves proj (pluginCallback W transID invalidateCache).
Proof.
  unfold pluginCallback.
  frame; first [apply logMsg_preserves|apply writeCache_preserves
               |apply readCache_preserves|apply preserves_modify].
  all: intros st; first [apply proj_file|apply proj_cache].
Qed.

End CacheFrame.

(** ** The cache: resolution, persistence and invalidation *)

Lemma compact_nil (cachedReplicas : replicaMap) : compact [] cachedReplicas = ∅.
Proof.
  unfold compact. apply map_eq. intros lfn. rewrite lookup_empty.
  apply map_lookup_filter_None. right. intros v _ Hin. simpl in Hin.
  by apply not_elem_of_nil in Hin.
Qed.

Lemma evict_compacted_nil (timeLimit : Z) (transID : Z) (c : cache) :
  evict timeLimit (compacted transID [] c) !! transID = None.
Proof.
  destruct (evict timeLimit (compacted transID [] c) !! transID) as [kept|] eqn:Hkept;
    [exfalso|reflexivity].
  apply evict_lookup in Hkept as (snapshots & HT & -> & Hne).
  apply Hne. apply map_eq. intros crs. rewrite lookup_empty.
  destruct (fresh_snapshots timeLimit snapshots !! crs) as [cr|] eqn:Hcr; [exfalso|done].
  apply fresh_snapshots_lookup in Hcr as (Hcr & _ & Hcr_ne).
  unfold compacted in HT. rewrite lookup_alter_eq in HT.
  destruct (c !! transID) as [snapshots0|]; [|discriminate].
  injection HT as <-. rewrite lookup_fmap in Hcr.
  destruct (snapshots0 !! crs) as [cr0|]; [|discriminate].
  injection Hcr as <-. apply Hcr_ne, compact_nil.
Qed.

(** X15: a resolution request for no files returns [S_OK] with the empty
    map, asks nothing of the catalog or the registry, and leaves the cache
    without any snapshot for the transformation: the scan empties every
    snapshot of it and the eviction pass then drops them. *)
Theorem getDataReplicas_empty_request (W : world) (transID : Z) (active : bool)
    (st : agent) :
  ∃ st',
    __getDataReplicas W transID [] active st = (Return (S_OK ∅), st') ∧
    history st' = history st ∧
    replicaCache st' !! transID = None.
Proof.
  destruct (getDataReplicas_all_cached W transID [] active st)
    as (dataReplicas & st' & Hrun & Hh & _ & Hval).
  { intros lfn Hin. by apply not_elem_of_nil in Hin. }
  assert (dataReplicas = ∅) as ->.
  { apply map_eq. intros lfn. rewrite lookup_empty.
    destruct (dataReplicas !! lfn) as [v|] eqn:Hv; [exfalso|done].
    destruct (Hval lfn v Hv) as [Hin _]. by apply not_elem_of_nil in Hin. }
  exists st'. split; [exact Hrun|]. split; [exact Hh|].
  rewrite (getDataReplicas_returns_evicted W transID [] active st st' _ Hrun).
  apply evict_compacted_nil.
Qed.

(** X16: when every requested file is held by some snapshot of the
    transformation, of whatever age, the request returns [S_OK] with an
    entry for exactly the requested files, each taken from a snapshot, and
    calls no remote service; the snapshots are compacted to the requested
    files and only then put through the eviction test, so a stale snapshot
    still answers this request and is gone afterwards. *)
Theorem getDataReplicas_served_from_cache (W : world) (transID : Z)
    (lfns : list string) (active : bool) (st : agent) :
  (∀ lfn, lfn ∈ lfns → ∃ v, cached_at (replicaCache st) transID lfn v) →
  ∃ dataReplicas st',
    __getDataReplicas W transID lfns active st = (Return (S_OK dataReplicas), st') ∧
    history st' = history st ∧
    (∀ lfn, is_Some (dataReplicas !! lfn) ↔ lfn ∈ lfns) ∧
    (∀ lfn v, dataReplicas !! lfn = Some v →
              cached_at (replicaCache st) transID lfn v) ∧
    replicaCache st'
      = evict (utcnow W (history st) - timedelta_days (replicaCacheValidity st))
              (compacted transID lfns (replicaCache st)).
Proof.
  intros Hall.
  destruct (getDataReplicas_all_cached W transID lfns active st Hall)
    as (dataReplicas & st' & Hrun & Hh & Hhit & Hval).
  exists dataReplicas, st'. split; [exact Hrun|]. split; [exact Hh|].
  split; [|split].
  - intros lfn. split; [|apply Hhit]. intros [v Hv]. by destruct (Hval lfn v Hv).
  - intros lfn v Hv. by destruct (Hval lfn v Hv).
  - by eapply getDataReplicas_returns_evicted.
Qed.

Lemma getDataReplicas_served_from_cache_witness :
  ∃ dataReplicas st',
    __getDataReplicas Sample.quiet 7 ["a"; "b"] true Sample.cached
      = (Return (S_OK dataReplicas), st') ∧
    history st' = history Sample.cached ∧
    (∀ lfn, is_Some (dataReplicas !! lfn) ↔ lfn ∈ ["a"; "b"]) ∧
    (∀ lfn v, dataReplicas !! lfn = Some v →
              cached_at (replicaCache Sample.cached) 7 lfn v) ∧
    replicaCache st'
      = evict (utcnow Sample.quiet (history Sample.cached)
               - timedelta_days (replicaCacheValidity Sample.cached))
              (compacted 7 ["a"; "b"] (replicaCache Sample.cached)).
Proof.
  apply (getDataReplicas_served_from_cache Sample.quiet 7 ["a"; "b"] true Sample.cached).
  intros lfn Hin. apply elem_of_cons in Hin as [->|Hin].
  - exists {[ "SE1" := "pfn-a" ]}.
    exists {[ 10 := {[ "a" := {[ "SE1" := "pfn-a" ]} ]};
              999999999999 := {[ "b" := {[ "SE2" := "pfn-b" ]} ]} ]},
           10, {[ "a" := {[ "SE1" := "pfn-a" ]} ]}.
    split; [reflexivity|]. split; reflexivity.
  - apply list_elem_of_singleton in Hin as ->.
    exists {[ "SE2" := "pfn-b" ]}.
    exists {[ 10 := {[ "a" := {[ "SE1" := "pfn-a" ]} ]};
              999999999999 := {[ "b" := {[ "SE2" := "pfn-b" ]} ]} ]},
           999999999999, {[ "b" := {[ "SE2" := "pfn-b" ]} ]}.
    split; [reflexivity|]. split; reflexivity.
Defined.

Lemma init_replicaCache (o : options) (disk : file) :
  replicaCache (__init__ o disk) = on_disk disk ∧ cacheFile (__init__ o disk) = disk.
Proof. unfold __init__, __readCache. run. by destruct disk. Qed.

(** X17: the cache survives a restart exactly when the last write went
    through. An agent constructed on the file that the eviction pass left
    starts with the cache the pass left in memory; when the write failed it
    starts with whatever the file then holds, the empty cache if that
    cannot be loaded. *)
Theorem cleanCache_then_restart (W : world) (o : options) (st : agent) :
  let st' := (__cleanCache W st).2 in
  replicaCache (__init__ o (cacheFile st'))
    = match pickle_dump W (history st) with
      | None => replicaCache st'
      | Some residue => on_disk residue
      end.
Proof.
  intros st'. destruct (cleanCache_spec W st) as (st1 & Hrun & _ & _ & Hfile).
  assert (st' = st1) as -> by (unfold st'; by rewrite Hrun).
  destruct (init_replicaCache o (cacheFile st1)) as [-> _].
  destruct (pickle_dump W (history st)) as [residue|].
  - destruct Hfile as [-> _]. reflexivity.
  - by rewrite Hfile.
Qed.

Lemma readCache_spec (st : agent) :
  ∃ st',
    __readCache st = (Return tt, st') ∧
    history st' = history st ∧ cacheFile st' = cacheFile st ∧
    replicaCache st' = on_disk (cacheFile st).
Proof.
  unfold __readCache. run. destruct (cacheFile st) eqn:Hfile.
  - eexists. split; [reflexivity|]. split; [reflexivity|]. split; [exact Hfile|reflexivity].
  - eexists. split; [reflexivity|]. split; [reflexivity|]. split; [exact Hfile|reflexivity].
Qed.

(** X18: the plug-in callback never raises and calls no remote service.
    Without [invalidateCache] it does nothing. With it, the cache in memory
    is replaced by the content of the cache file without the
    transformation, whatever was in memory before; the file is written
    again only when it held the transformation, and is otherwise left as it
    was. *)
Theorem pluginCallback_invalidates (W : world) (transID : Z) (st : agent) :
  pluginCallback W transID false st = (Return tt, st) ∧
  ∃ st',
    pluginCallback W transID true st = (Return tt, st') ∧
    history st' = history st ∧
    replicaCache st' = delete transID (on_disk (cacheFile st)) ∧
    match on_disk (cacheFile st) !! transID, pickle_dump W (history st) with
    | None, _ => cacheFile st' = cacheFile st
    | Some _, None => cacheFile st' = Pickled (replicaCache st')
    | Some _, Some residue => cacheFile st' = residue
    end.
Proof.
  split; [reflexivity|].
  unfold pluginCallback, try_except. unfold mbind, ST_bind, bind at 1.
  destruct (readCache_spec st) as (st1 & -> & Hh1 & Hf1 & Hc1).
  unfold bind at 1, get at 1. rewrite Hc1.
  destruct (on_disk (cacheFile st) !! transID) as [snapshots|] eqn:HT.
  - rewrite bool_decide_eq_true_2 by (by exists snapshots).
    unfold bind at 1, logMsg at 1, modify at 1.
    unfold bind at 1, subscript at 1. rewrite HT. unfold ret at 1.
    unfold bind at 1, modify at 1.
    set (st2 := set_replicaCache _ _).
    destruct (writeCache_spec W st2) as (st3 & -> & Hh3 & Hc3 & Hfile).
    exists st3. split; [reflexivity|]. split; [by rewrite Hh3|].
    split; [by rewrite Hc3|].
    change (history st2) with (history st1) in Hfile. rewrite Hh1 in Hfile.
    destruct (pickle_dump W (history st)) as [residue|].
    + by destruct Hfile.
    + by rewrite Hfile, Hc3.
  - rewrite bool_decide_eq_false_2 by (intros [v Hv]; discriminate).
    exists st1. split; [reflexivity|]. split; [exact Hh1|].
    split; [|exact Hf1]. rewrite Hc1. symmetry. by apply delete_id.
Qed.

(** X19: the eviction pass and the plug-in callback work on the cache, its
    file and the log only: the queue, the list of transformations in
    flight, the counts of unused files, the cache validity and the record
    of remote calls are as before, whatever the cache holds and whether or
    not the file can be written. *)
Theorem cache_methods_keep_dispatcher_state (W : world) (transID : Z)
    (invalidateCache : bool) :
  keeps_dispatcher_state (__cleanCache W) ∧
  keeps_dispatcher_state (pluginCallback W transID invalidateCache).
Proof.
  split; repeat split;
    first [by apply cleanCache_preserves|by apply pluginCallback_preserves].
Qed.

(** X20: for a transformation that is neither a replication nor a removal,
    the pipeline after the listing of its files stops at the first file
    that no snapshot of the transformation holds: the resolution of the
    replicas raises, and neither the catalog nor the plug-in nor the
    registry has been called. *)
Theorem pipeline_stops_at_cache_miss (W : world) (transDict : transDict)
    (transFiles : list transFile) (f : transFile) (st : agent) :
  lower (TransType transDict) ∉ ["replication"; "removal"] →
  f ∈ transFiles →
  (∀ v, ¬ cached_at (replicaCache st) (TransformationID transDict) (LFN f) v) →
  ∃ st',
    processTransformation_rest W transDict (S_OK (Some transFiles)) st
      = (Raise (TypeError "got multiple values for keyword argument"), st') ∧
    history st' = history st.
Proof.
  intros Htype Hin Hmiss. unfold processTransformation_rest.
  rewrite bool_decide_eq_false_2 by exact Htype. cbn [negb].
  unfold mbind, mret, ST_bind, ST_ret. unfold bind at 1, ret at 1.
  unfold bind at 1, ret at 1. unfold bind at 1.
  destruct (getDataReplicas_miss_raises W (TransformationID transDict)
              (map LFN transFiles) true st (LFN f)) as (st' & -> & Hh).
  - apply list_elem_of_fmap. by exists f.
  - exact Hmiss.
  - exists st'. by split.
Qed.

Lemma pipeline_stops_at_cache_miss_witness :
  ∃ st',
    processTransformation_rest Sample.quiet Sample.t102
      (S_OK (Some [TransFile "f1"; TransFile "f2"])) Sample.fresh
      = (Raise (TypeError "got multiple values for keyword argument"), st') ∧
    history st' = history Sample.fresh.
Proof.
  apply (pipeline_stops_at_cache_miss Sample.quiet Sample.t102
           [TransFile "f1"; TransFile "f2"] (TransFile "f1") Sample.fresh).
  - apply (bool_decide_unpack _). vm_compute. exact I.
  - left.
  - intros v (snapshots & crs & cachedReplicas & HT & _). vm_compute in HT.
    discriminate.
Defined.


